(** * Transaction status store of the explorer

    Shallow embedding of [explorer/src/providers/transactions/index.tsx]:
    the reducer of the status store and the asynchronous status fetcher
    [fetchTransactionStatus], followed by the properties of both.

    Modelling conventions.
    - A JavaScript [number] that the module only passes through (slot,
      block time, confirmations) is a [Z].
    - The [Transactions] object is used as a dictionary keyed by the
      transaction signature; its own keys are a
      [gmap string TransactionStatus].  It is a plain object, so a
      property read [transactions[signature]] that finds no own key goes
      on to [Object.prototype] ([read] below).
    - An absent optional field and a field holding [undefined] are both
      [None]. *)

From Stdlib Require Import ZArith List.
From stdpp Require Import base gmap strings list fin_maps.

Local Open Scope Z_scope.

Section Transactions.

(** [TransactionError] of web3.js: an opaque payload the module never
    inspects. *)
Context {TransactionError : Type}.

(** ** Data model (lines 21-48) *)

Inductive FetchStatus : Type :=
| Fetching
| FetchFailed
| Fetched.

(** [type Confirmations = number | "max"] *)
Inductive Confirmations : Type :=
| ConfirmationsNumber (n : Z)
| ConfirmationsMax.

(** [type Timestamp = number | "unavailable"] *)
Inductive Timestamp : Type :=
| TimestampNumber (t : Z)
| TimestampUnavailable.

(** [SignatureResult] of web3.js: [{ err: TransactionError | null }]. *)
Record SignatureResult : Type := {
  err : option TransactionError
}.

Record TransactionStatusInfo : Type := {
  slot : Z;
  result : SignatureResult;
  timestamp : Timestamp;
  confirmations : Confirmations
}.

(** The interface declares [signature] as required.  The reducer can
    all the same store a record that has none (it spreads whatever the
    property read returned), so the field is optional here. *)
Record TransactionStatus : Type := {
  fetchStatus : FetchStatus;
  signature : option string;
  info : option TransactionStatusInfo
}.

Record State : Type := {
  transactions : gmap string TransactionStatus;
  url : string
}.

(** ** Actions (lines 50-75) *)

Inductive Action : Type :=
| UpdateStatus (url : string) (signature : string)
    (fetchStatus : FetchStatus) (info : option TransactionStatusInfo)
| FetchSignature (url : string) (signature : string)
| Clear (url : string).

(** [action.url]: every action carries one. *)
Definition action_url (action : Action) : string :=
  match action with
  | UpdateStatus u _ _ _ => u
  | FetchSignature u _ => u
  | Clear u => u
  end.

(** [action.type === ActionType.Clear] *)
Definition is_Clear (action : Action) : bool :=
  match action with
  | Clear _ => true
  | _ => false
  end.

(** ** Property reads on the map

    [state.transactions] is built from object literals ([{}] and spreads),
    so its prototype is [Object.prototype]: a read of a name that is not
    an own key returns the member of that name of [Object.prototype] when
    there is one, and [undefined] otherwise. *)

(** The member names of [Object.prototype] (ECMAScript, with Annex B). *)
Definition Object_prototype : list string :=
  ["constructor"; "hasOwnProperty"; "isPrototypeOf"; "propertyIsEnumerable";
   "toLocaleString"; "toString"; "valueOf";
   "__defineGetter__"; "__defineSetter__";
   "__lookupGetter__"; "__lookupSetter__"; "__proto__"]%string.

Definition inherited (name : string) : bool :=
  bool_decide (name ∈ Object_prototype).

(** What [transactions[name]] evaluates to. *)
Inductive Property : Type :=
| Own (transaction : TransactionStatus)
| Inherited
| Undefined.

Definition read (transactions : gmap string TransactionStatus)
  (name : string) : Property :=
  match transactions !! name with
  | Some transaction => Own transaction
  | None => if inherited name then Inherited else Undefined
  end.

(** [if (transaction)]: a record is an object, and the members of
    [Object.prototype] are functions (for [__proto__], the prototype
    object itself); all of them are truthy. *)
Definition is_truthy (transaction : Property) : bool :=
  match transaction with
  | Own _ => true
  | Inherited => true
  | Undefined => false
  end.

(** The [signature] field that the spread [{...transaction, ...}] copies:
    the record's own one; a member of [Object.prototype] has no
    enumerable own property, so the spread copies nothing from it. *)
Definition spread_signature (transaction : Property) : option string :=
  match transaction with
  | Own record => signature record
  | Inherited => None
  | Undefined => None
  end.

(** ** The reducer (lines 78-128) *)

Definition reducer (state : State) (action : Action) : State :=
  match action with
  | Clear u => {| url := u; transactions := ∅ |}
  | _ =>
    if bool_decide (action_url action ≠ url state) then state
    else
      match action with
      | FetchSignature _ sg =>
        let transaction := read (transactions state) sg in
        if is_truthy transaction then
          {| transactions :=
               <[sg := {| signature := spread_signature transaction;
                          fetchStatus := Fetching;
                          info := None |}]> (transactions state);
             url := url state |}
        else
          {| transactions :=
               <[sg := {| signature := Some sg;
                          fetchStatus := Fetching;
                          info := None |}]> (transactions state);
             url := url state |}
      | UpdateStatus _ sg fs i =>
        let transaction := read (transactions state) sg in
        if is_truthy transaction then
          {| transactions :=
               <[sg := {| signature := spread_signature transaction;
                          fetchStatus := fs;
                          info := i |}]> (transactions state);
             url := url state |}
        else state
      | Clear _ => state
      end
  end.

(** The state [React.useReducer] starts from (lines 138-141). *)
Definition initialState (u : string) : State :=
  {| transactions := ∅; url := u |}.

(** A queue of dispatched actions, reduced in dispatch order. *)
Definition dispatchAll (state : State) (actions : list Action) : State :=
  fold_left reducer actions state.

(** [useTransactionStatus] (lines 289-299), on the provided state:
    [context.transactions[signature]]. *)
Definition useTransactionStatus (context : State) (sg : string) : Property :=
  read (transactions context) sg.

(** ** External collaborators (section 6 of the specification)

    The RPC client of web3.js is not part of the module.  Its calls are
    events answered by an environment; a rejected promise or a throwing
    constructor answers with [inl error].  [dispatch] (the dispatcher of
    [React.useReducer]) and [console.error] return nothing and do not
    throw. *)

(** The values JavaScript can throw, and the client handle. *)
Context {JsError Connection : Type}.

(** [SignatureStatus] of web3.js, the non-null [value] of a response. *)
Record SignatureStatus : Type := {
  value_slot : Z;
  value_confirmations : option Z;
  value_err : option TransactionError
}.

(** [RpcResponseAndContext<SignatureStatus | null>] *)
Record RpcResponseAndContext : Type := {
  context_slot : Z;
  value : option SignatureStatus
}.

(** One argument of a [console.error] call. *)
Inductive LogArg : Type :=
| LogString (s : string)
| LogNumber (n : Z)
| LogError (error : JsError).

Inductive Event : Type -> Type :=
| Dispatch (action : Action) : Event unit
| NewConnection (endpoint : string) : Event (JsError + Connection)
| GetSignatureStatus (connection : Connection) (sg : string)
    (searchTransactionHistory : bool)
  : Event (JsError + RpcResponseAndContext)
| GetBlockTime (connection : Connection) (slot : Z)
  : Event (JsError + option Z)
| ConsoleError (args : list LogArg) : Event unit.

(** Programs over the events: finite trees, one branch per answer. *)
Inductive Async (A : Type) : Type :=
| Ret (a : A)
| Vis {X : Type} (e : Event X) (k : X -> Async A).

Arguments Ret {A} a.
Arguments Vis {A X} e k.

Fixpoint async_bind {A B : Type} (p : Async A) (f : A -> Async B) : Async B :=
  match p with
  | Ret a => f a
  | Vis e k => Vis e (fun x => async_bind (k x) f)
  end.

(** How a statement completes: normally with a value, or abruptly with a
    thrown error. *)
Inductive Completion (A : Type) : Type :=
| Normal (a : A)
| Thrown (error : JsError).

Arguments Normal {A} a.
Arguments Thrown {A} error.

(** The mutable local [info] of [fetchTransactionStatus] (line 223).  It
    is threaded through abrupt completions too: a [catch] block sees the
    assignments made before the throw. *)
Record Locals : Type := {
  local_info : option TransactionStatusInfo
}.

Definition M (A : Type) : Type := Locals -> Async (Locals * Completion A).

Definition ret {A : Type} (a : A) : M A :=
  fun l => Ret (l, Normal a).

Definition bind {A B : Type} (m : M A) (f : A -> M B) : M B :=
  fun l =>
    async_bind (m l) (fun r =>
      match r with
      | (l', Normal a) => f a l'
      | (l', Thrown error) => Ret (l', Thrown error)
      end).

(** [try { m } catch (error) { handler error }] *)
Definition try_catch {A : Type} (m : M A) (handler : JsError -> M A) : M A :=
  fun l =>
    async_bind (m l) (fun r =>
      match r with
      | (l', Normal a) => Ret (l', Normal a)
      | (l', Thrown error) => handler error l'
      end).

(** A call that cannot fail. *)
Definition trigger {X : Type} (e : Event X) : M X :=
  fun l => Vis e (fun x => Ret (l, Normal x)).

(** A fallible call: [await] of a promise that may reject, or a
    constructor that may throw. *)
Definition await {X : Type} (e : Event (JsError + X)) : M X :=
  fun l =>
    Vis e (fun r =>
      match r with
      | inl error => Ret (l, Thrown error)
      | inr x => Ret (l, Normal x)
      end).

Definition get_info : M (option TransactionStatusInfo) :=
  fun l => Ret (l, Normal (local_info l)).

Definition set_info (i : option TransactionStatusInfo) : M unit :=
  fun _ => Ret ({| local_info := i |}, Normal tt).

#[local] Instance M_ret : MRet M := @ret.
#[local] Instance M_bind : MBind M := fun A B f m => bind m f.

Definition dispatch (action : Action) : M unit := trigger (Dispatch action).

Definition console_error (args : list LogArg) : M unit :=
  trigger (ConsoleError args).

(** ** The fixture cache

    [./cached], which exports [CACHED_STATUSES] and [isCached], is not
    among the sources at hand; both are parameters of the fetcher. *)
Context (isCached : string -> string -> bool).
Context (CACHED_STATUSES : gmap string TransactionStatusInfo).

(** ** The status fetcher (lines 211-277)

    [let fetchStatus;] is assigned exactly once on every path (lines
    226, 263 and 266), as the last statement of its block, so each block
    yields it as its value.  [blockTime] starts as [null] and is assigned
    by the last statement of the inner [try]: the inner [try]/[catch]
    yields it, [null] when the lookup threw. *)
Definition fetchTransactionStatus (sg : string) (u : string) : M unit :=
  dispatch (FetchSignature u sg);;
  fetchStatus ←
    (if isCached u sg then
       set_info (CACHED_STATUSES !! sg);;
       mret Fetched
     else
       try_catch
         (connection ← await (NewConnection u);
          response ← await (GetSignatureStatus connection sg true);
          match value response with
          | Some v =>
            blockTime ←
              try_catch
                (await (GetBlockTime connection (value_slot v)))
                (fun error =>
                   console_error
                     [LogString "Failed to fetch block time for slot ";
                      LogNumber (value_slot v);
                      LogString ":";
                      LogError error];;
                   mret None);
            let timestamp :=
              match blockTime with
              | Some t => TimestampNumber t
              | None => TimestampUnavailable
              end in
            let confirmations :=
              match value_confirmations v with
              | Some n => ConfirmationsNumber n
              | None => ConfirmationsMax
              end in
            set_info (Some {| slot := value_slot v;
                              timestamp := timestamp;
                              confirmations := confirmations;
                              result := {| err := value_err v |} |})
          | None => mret tt
          end;;
          mret Fetched)
         (fun error =>
            console_error
              [LogString "Failed to fetch transaction status";
               LogError error];;
            mret FetchFailed));
  i ← get_info;
  dispatch (UpdateStatus u sg fetchStatus i).

(** [info] as the fetcher assembles it from a matching status and the
    outcome of the block-time lookup (lines 246-261). *)
Definition resolved_info (v : SignatureStatus)
  (blockTime : JsError + option Z) : TransactionStatusInfo :=
  {| slot := value_slot v;
     timestamp :=
       match blockTime with
       | inr (Some t) => TimestampNumber t
       | _ => TimestampUnavailable
       end;
     confirmations :=
       match value_confirmations v with
       | Some n => ConfirmationsNumber n
       | None => ConfirmationsMax
       end;
     result := {| err := value_err v |} |}.

(** ** Running a program against an environment *)

Record Env : Type := {
  env_NewConnection : string -> JsError + Connection;
  env_getSignatureStatus :
    Connection -> string -> bool -> JsError + RpcResponseAndContext;
  env_getBlockTime : Connection -> Z -> JsError + option Z
}.

Definition respond (env : Env) {X : Type} (e : Event X) : X :=
  match e in Event T return T with
  | Dispatch _ => tt
  | NewConnection endpoint => env_NewConnection env endpoint
  | GetSignatureStatus c sg b => env_getSignatureStatus env c sg b
  | GetBlockTime c s => env_getBlockTime env c s
  | ConsoleError _ => tt
  end.

(** An entry of the trace of calls the program made. *)
Inductive Call : Type :=
| call {X : Type} (e : Event X).

Fixpoint run {A : Type} (env : Env) (p : Async A) : list Call * A :=
  match p with
  | Ret a => ([], a)
  | Vis e k =>
    let '(calls, a) := run env (k (respond env e)) in
    (call e :: calls, a)
  end.

(** A fetch starts with [info] undefined. *)
Definition exec {A : Type} (env : Env) (m : M A)
  : list Call * (Locals * Completion A) :=
  run env (m {| local_info := None |}).

Definition trace {A : Type} (env : Env) (m : M A) : list Call :=
  fst (exec env m).

Definition completion {A : Type} (env : Env) (m : M A) : Completion A :=
  snd (snd (exec env m)).

(** The actions a trace dispatched, in order. *)
Fixpoint dispatched (calls : list Call) : list Action :=
  match calls with
  | [] => []
  | call (Dispatch action) :: rest => action :: dispatched rest
  | call _ :: rest => dispatched rest
  end.

(** Calls that reach the status or block-time service. *)
Definition is_network (c : Call) : bool :=
  match c with
  | call (NewConnection _) => true
  | call (GetSignatureStatus _ _ _) => true
  | call (GetBlockTime _ _) => true
  | call _ => false
  end.

(** ** The dispatches the module issues

    [dispatch] never leaves the module: the provider dispatches [Clear]
    from its effect (line 150), and every other dispatch is made by a run
    of [fetchTransactionStatus] (lines 216 and 270). *)
Inductive issued : Action -> Prop :=
| issued_Clear (u : string) : issued (Clear u)
| issued_fetch (env : Env) (sg u : string) (action : Action) :
    In action (dispatched (trace env (fetchTransactionStatus sg u))) ->
    issued action.

(** Store states the application can be in: the issued dispatches reach
    the reducer in any order and any interleaving. *)
Inductive reachable : State -> Prop :=
| reachable_initial (u : string) : reachable (initialState u)
| reachable_dispatch (state : State) (action : Action) :
    reachable state -> issued action -> reachable (reducer state action).

(** ** Predicates on store states *)

(** A record carries [info] only when its [fetchStatus] is [Fetched]. *)
Definition info_only_when_Fetched (state : State) : Prop :=
  map_Forall
    (fun _ transaction =>
       fetchStatus transaction <> Fetched -> info transaction = None)
    (transactions state).

(** Every record is stored under its own [signature]. *)
Definition key_coherent (state : State) : Prop :=
  map_Forall (fun sg transaction => signature transaction = Some sg)
    (transactions state).

(** A non-[Clear] action addressed to another cluster than the store's. *)
Definition stale (state : State) (action : Action) : Prop :=
  is_Clear action = false /\ action_url action <> url state.

End Transactions.

Arguments Ret {TransactionError JsError Connection A} a.
Arguments Vis {TransactionError JsError Connection A X} e k.
Arguments Normal {JsError A} a.
Arguments Thrown {JsError A} error.

#[global] Instance FetchStatus_eq_dec : EqDecision FetchStatus.
Proof. solve_decision. Defined.

#[global] Instance key_coherent_dec {TransactionError : Type}
  (state : @State TransactionError) : Decision (key_coherent state).
Proof. unfold key_coherent. apply _. Defined.

#[global] Instance info_only_when_Fetched_dec {TransactionError : Type}
  (state : @State TransactionError) : Decision (info_only_when_Fetched state).
Proof. unfold info_only_when_Fetched. apply _. Defined.

#[global] Instance stale_dec {TransactionError : Type}
  (state : @State TransactionError) (action : Action) :
  Decision (stale state action).
Proof. unfold stale. apply _. Defined.

(** ** Reading a queue of actions *)

Section Queue.

Context {TransactionError : Type}.

(** [action.signature], which [Clear] does not have. *)
Definition action_signature (action : @Action TransactionError)
  : option string :=
  match action with
  | UpdateStatus _ sg _ _ => Some sg
  | FetchSignature _ sg => Some sg
  | Clear _ => None
  end.

(** The signatures for which a queue writes a record that may be new, on
    a store for cluster [u]: those of its [FetchSignature] actions for
    [u], and those of its [UpdateStatus] actions for [u] that name a
    member of [Object.prototype]. *)
Fixpoint created (u : string) (actions : list (@Action TransactionError))
  : gset string :=
  match actions with
  | [] => ∅
  | FetchSignature u' sg :: rest =>
    if bool_decide (u' = u) then {[ sg ]} ∪ created u rest
    else created u rest
  | UpdateStatus u' sg _ _ :: rest =>
    if bool_decide (u' = u) && inherited sg then {[ sg ]} ∪ created u rest
    else created u rest
  | Clear _ :: rest => created u rest
  end.

End Queue.

(** ** Reading a trace of calls *)

Section Calls.

Context {TransactionError JsError Connection : Type}.

Implicit Types (calls : list (@Call TransactionError JsError Connection)).

(** The endpoints connections were made to, in order. *)
Fixpoint connections calls : list string :=
  match calls with
  | [] => []
  | call (NewConnection endpoint) :: rest => endpoint :: connections rest
  | call _ :: rest => connections rest
  end.

(** The status queries made: connection, signature and the
    [searchTransactionHistory] flag. *)
Fixpoint status_queries calls : list (Connection * string * bool) :=
  match calls with
  | [] => []
  | call (GetSignatureStatus c sg b) :: rest =>
    (c, sg, b) :: status_queries rest
  | call _ :: rest => status_queries rest
  end.

(** The block-time queries made: connection and slot. *)
Fixpoint blockTime_queries calls : list (Connection * Z) :=
  match calls with
  | [] => []
  | call (GetBlockTime c s) :: rest => (c, s) :: blockTime_queries rest
  | call _ :: rest => blockTime_queries rest
  end.

(** The argument lists of the [console.error] calls made. *)
Fixpoint logs calls : list (list (@LogArg JsError)) :=
  match calls with
  | [] => []
  | call (ConsoleError args) :: rest => args :: logs rest
  | call _ :: rest => logs rest
  end.

End Calls.

(** ** Interleaving two queues

    [Merge queue1 queue2 queue]: [queue] holds the actions of [queue1] and
    of [queue2], each queue in its own order. *)
Inductive Merge {A : Type} : list A -> list A -> list A -> Prop :=
| Merge_nil : Merge [] [] []
| Merge_left (a : A) (queue1 queue2 queue : list A) :
    Merge queue1 queue2 queue -> Merge (a :: queue1) queue2 (a :: queue)
| Merge_right (a : A) (queue1 queue2 queue : list A) :
    Merge queue1 queue2 queue -> Merge queue1 (a :: queue2) (a :: queue).

(** ** The provider's effect and the test transactions (lines 136-209)

    What [TransactionsProvider] runs when the cluster changes, and
    [createTestTransaction].  The key pair, the base58 decoder, the RPC
    client and the account fetcher are external: their calls are events,
    as for the fetcher, and a call that throws or rejects answers
    [inl error].  [fetchTransactionStatus] is called without [await]: the
    call starts a fetch and returns at once, whatever becomes of the
    fetch, so it is an event of its own.  [Cluster] and [ClusterStatus]
    come from [../cluster], which is not among the sources at hand; the
    two enumerations and the members the provider names are parameters. *)

Section TestTransactions.

Context {TransactionError JsError Connection : Type}.
Context {Account PublicKey Buffer : Type}.
Context {Cluster ClusterStatus : Type}.
Context `{EqDecision Cluster} `{EqDecision ClusterStatus}.
Context (Devnet : Cluster) (Connecting : ClusterStatus).

(** [account.publicKey] *)
Context (publicKey : Account -> PublicKey).

(** The argument of [SystemProgram.transfer]. *)
Record TransferParams : Type := {
  fromPubkey : PublicKey;
  toPubkey : PublicKey;
  lamports : Z
}.

Inductive ProviderEvent : Type -> Type :=
| ProviderDispatch (action : @Action TransactionError) : ProviderEvent unit
| NewAccount (secretKey : option Buffer) : ProviderEvent (JsError + Account)
| Base58Decode (encoded : string) : ProviderEvent (JsError + Buffer)
| NewConnectionWith (endpoint : string) (commitment : string)
  : ProviderEvent (JsError + Connection)
| RequestAirdrop (connection : Connection) (to : PublicKey) (amount : Z)
  : ProviderEvent (JsError + string)
| SendAndConfirmTransaction (connection : Connection) (tx : TransferParams)
    (signers : list Account) (confirmations : Z) (skipPreflight : bool)
  : ProviderEvent (JsError + string)
| StartFetchTransactionStatus (sg : string) (u : string) : ProviderEvent unit
| FetchAccount (pubkey : PublicKey) : ProviderEvent (JsError + unit)
| ProviderConsoleError (args : list (@LogArg JsError)) : ProviderEvent unit.

(** Programs over these events; a leaf is how the program completed. *)
Inductive Script (A : Type) : Type :=
| Done (c : @Completion JsError A)
| Step {X : Type} (e : ProviderEvent X) (k : X -> Script A).

Arguments Done {A} c.
Arguments Step {A X} e k.

Fixpoint script_bind {A B : Type} (p : Script A) (f : A -> Script B)
  : Script B :=
  match p with
  | Done (Normal a) => f a
  | Done (Thrown error) => Done (Thrown error)
  | Step e k => Step e (fun x => script_bind (k x) f)
  end.

(** [try { p } catch (error) { handler error }] *)
Fixpoint script_try_catch {A : Type} (p : Script A)
  (handler : JsError -> Script A) : Script A :=
  match p with
  | Done (Normal a) => Done (Normal a)
  | Done (Thrown error) => handler error
  | Step e k => Step e (fun x => script_try_catch (k x) handler)
  end.

(** A call that cannot fail. *)
Definition script_trigger {X : Type} (e : ProviderEvent X) : Script X :=
  Step e (fun x => Done (Normal x)).

(** A call that may throw, or the [await] of a promise that may reject. *)
Definition script_call {X : Type} (e : ProviderEvent (JsError + X))
  : Script X :=
  Step e (fun r =>
    match r with
    | inl error => Done (Thrown error)
    | inr x => Done (Normal x)
    end).

#[local] Instance Script_ret : MRet Script := fun A a => Done (Normal a).
#[local] Instance Script_bind : MBind Script :=
  fun A B f p => script_bind p f.

(** [if (testKey)]: a string is truthy unless it is empty. *)
Definition truthy (testKey : option string) : option string :=
  match testKey with
  | Some key => if bool_decide (key = ""%string) then None else Some key
  | None => None
  end.

(** [createTestTransaction] (lines 168-209).  [REACT_APP_TEST_KEY] is the
    value of [process.env.REACT_APP_TEST_KEY]; [dispatch] and
    [fetchAccount] are reached through the events. *)
Definition createTestTransaction (REACT_APP_TEST_KEY : option string)
  (u : string) (clusterStatus : ClusterStatus) : Script unit :=
  let testKey := REACT_APP_TEST_KEY in
  fresh ← script_call (NewAccount None);
  testAccount ←
    match truthy testKey with
    | Some key =>
      secretKey ← script_call (Base58Decode key);
      script_call (NewAccount (Some secretKey))
    | None => mret fresh
    end;
  script_try_catch
    (connection ← script_call (NewConnectionWith u "recent");
     sg ← script_call
            (RequestAirdrop connection (publicKey testAccount) 100000);
     script_trigger (StartFetchTransactionStatus sg u);;
     script_call (FetchAccount (publicKey testAccount)))
    (fun error =>
       script_trigger
         (ProviderConsoleError
            [LogString "Failed to create test success transaction";
             LogError error]));;
  script_try_catch
    (connection ← script_call (NewConnectionWith u "recent");
     let tx := {| fromPubkey := publicKey testAccount;
                  toPubkey := publicKey testAccount;
                  lamports := 1 |} in
     sg ← script_call
            (SendAndConfirmTransaction connection tx [testAccount] 1 false);
     script_trigger (StartFetchTransactionStatus sg u))
    (fun error =>
       script_trigger
         (ProviderConsoleError
            [LogString "Failed to create test failure transaction";
             LogError error])).

(** A call of an [async] function that is not awaited: the caller goes
    on normally, also when the function rejects. *)
Fixpoint not_awaited {A : Type} (p : Script A) : Script unit :=
  match p with
  | Done _ => Done (Normal tt)
  | Step e k => Step e (fun x => not_awaited (k x))
  end.

(** The effect of [TransactionsProvider] (lines 148-157), with the
    calls of the test transactions it starts.  [testFlag] is
    [query.get("test")]. *)
Definition TransactionsProvider_effect (REACT_APP_TEST_KEY : option string)
  (testFlag : option string) (cluster : Cluster)
  (clusterStatus : ClusterStatus) (u : string) : Script unit :=
  (if bool_decide (clusterStatus = Connecting)
   then script_trigger (ProviderDispatch (Clear u))
   else mret tt);;
  if bool_decide (cluster = Devnet) && bool_decide (testFlag <> None)
  then not_awaited (createTestTransaction REACT_APP_TEST_KEY u clusterStatus)
  else mret tt.

(** *** Running a script *)

Record ProviderEnv : Type := {
  env_NewAccount : option Buffer -> JsError + Account;
  env_base58_decode : string -> JsError + Buffer;
  env_NewConnectionWith : string -> string -> JsError + Connection;
  env_requestAirdrop : Connection -> PublicKey -> Z -> JsError + string;
  env_sendAndConfirmTransaction :
    Connection -> TransferParams -> list Account -> Z -> bool ->
    JsError + string;
  env_fetchAccount : PublicKey -> JsError + unit
}.

Definition provider_respond (env : ProviderEnv) {X : Type}
  (e : ProviderEvent X) : X :=
  match e in ProviderEvent T return T with
  | ProviderDispatch _ => tt
  | NewAccount secretKey => env_NewAccount env secretKey
  | Base58Decode encoded => env_base58_decode env encoded
  | NewConnectionWith endpoint commitment =>
    env_NewConnectionWith env endpoint commitment
  | RequestAirdrop c to amount => env_requestAirdrop env c to amount
  | SendAndConfirmTransaction c tx signers confirmations skipPreflight =>
    env_sendAndConfirmTransaction env c tx signers confirmations skipPreflight
  | StartFetchTransactionStatus _ _ => tt
  | FetchAccount pubkey => env_fetchAccount env pubkey
  | ProviderConsoleError _ => tt
  end.

Inductive ProviderCall : Type :=
| provider_call {X : Type} (e : ProviderEvent X).

Fixpoint run_script {A : Type} (env : ProviderEnv) (p : Script A)
  : list ProviderCall * @Completion JsError A :=
  match p with
  | Done c => ([], c)
  | Step e k =>
    let '(calls, c) := run_script env (k (provider_respond env e)) in
    (provider_call e :: calls, c)
  end.

(** The fetches a run started: signature and url, in order. *)
Fixpoint started_fetches (calls : list ProviderCall) : list (string * string) :=
  match calls with
  | [] => []
  | provider_call (StartFetchTransactionStatus sg u) :: rest =>
    (sg, u) :: started_fetches rest
  | provider_call _ :: rest => started_fetches rest
  end.

(** A call of [dispatch] written in the effect itself (line 150).  The
    fetches a run starts dispatch through the same dispatcher (lines 186
    and 205 hand it over); those dispatches belong to the runs of
    [fetchTransactionStatus] that [started_fetches] lists, not to the
    calls of the effect. *)
Definition is_own_dispatch (c : ProviderCall) : bool :=
  match c with
  | provider_call (ProviderDispatch _) => true
  | provider_call _ => false
  end.

(** The accounts a run asked to fetch. *)
Fixpoint fetched_accounts (calls : list ProviderCall) : list PublicKey :=
  match calls with
  | [] => []
  | provider_call (FetchAccount pubkey) :: rest =>
    pubkey :: fetched_accounts rest
  | provider_call _ :: rest => fetched_accounts rest
  end.

(** The transactions a run sent: transfer, signers, confirmations and
    the [skipPreflight] flag. *)
Fixpoint sent_transactions (calls : list ProviderCall)
  : list (TransferParams * list Account * Z * bool) :=
  match calls with
  | [] => []
  | provider_call (SendAndConfirmTransaction _ tx signers n b) :: rest =>
    (tx, signers, n, b) :: sent_transactions rest
  | provider_call _ :: rest => sent_transactions rest
  end.

(** The argument lists of the [console.error] calls of a run. *)
Fixpoint provider_logs (calls : list ProviderCall)
  : list (list (@LogArg JsError)) :=
  match calls with
  | [] => []
  | provider_call (ProviderConsoleError args) :: rest =>
    args :: provider_logs rest
  | provider_call _ :: rest => provider_logs rest
  end.

(** Calls that only handle the test key pair. *)
Definition key_handling (c : ProviderCall) : bool :=
  match c with
  | provider_call (NewAccount _) => true
  | provider_call (Base58Decode _) => true
  | provider_call _ => false
  end.

(** The test account [createTestTransaction] works with (lines 174-178):
    the one decoded from a non-empty test key, a fresh one otherwise; the
    fresh one is made in both cases. *)
Definition test_account (env : ProviderEnv)
  (REACT_APP_TEST_KEY : option string) : JsError + Account :=
  match env_NewAccount env None with
  | inl error => inl error
  | inr fresh =>
    match truthy REACT_APP_TEST_KEY with
    | Some key =>
      match env_base58_decode env key with
      | inl error => inl error
      | inr secretKey => env_NewAccount env (Some secretKey)
      end
    | None => inr fresh
    end
  end.

End TestTransactions.

Arguments Done {TransactionError JsError Connection Account PublicKey Buffer A} c.
Arguments Step {TransactionError JsError Connection Account PublicKey Buffer A X} e k.

(** ** Sample data

    The end-to-end scenario of the specification (cluster ["http://a"],
    signature ["SIG1"]), sample environments for the fetcher, and a
    one-entry fixture cache.  Error payloads and thrown values are
    strings here, a connection is named by its endpoint. *)

Definition sample_info : @TransactionStatusInfo string :=
  {| slot := 5;
     result := {| err := None |};
     timestamp := TimestampNumber 1000;
     confirmations := ConfirmationsMax |}.

(** [Clear("http://a")] then [FetchSignature("http://a", "SIG1")]. *)
Definition sample_state : @State string :=
  dispatchAll (initialState "http://b")
    [Clear "http://a"; FetchSignature "http://a" "SIG1"].

Definition sample_status : @SignatureStatus string :=
  {| value_slot := 5; value_confirmations := None; value_err := None |}.

(** The status query rejects. *)
Definition env_status_fails : @Env string string string :=
  {| env_NewConnection := fun endpoint => inr endpoint;
     env_getSignatureStatus := fun _ _ _ => inl "status query failed"%string;
     env_getBlockTime := fun _ _ => inr (Some 1000) |}.

(** The status query finds the transaction, the block-time query rejects. *)
Definition env_block_time_fails : @Env string string string :=
  {| env_NewConnection := fun endpoint => inr endpoint;
     env_getSignatureStatus := fun _ _ _ =>
       inr {| context_slot := 9; value := Some sample_status |};
     env_getBlockTime := fun _ _ => inl "block time failed"%string |}.

(** The status query answers that no transaction matches. *)
Definition env_not_found : @Env string string string :=
  {| env_NewConnection := fun endpoint => inr endpoint;
     env_getSignatureStatus := fun _ _ _ =>
       inr {| context_slot := 9; value := None |};
     env_getBlockTime := fun _ _ => inr None |}.

Definition sample_CACHED_STATUSES : gmap string (@TransactionStatusInfo string) :=
  {[ "SIG1"%string := sample_info ]}.

Definition sample_isCached (u sg : string) : bool :=
  bool_decide (u = "http://a"%string) && bool_decide (sg = "SIG1"%string).

Definition never_cached (u sg : string) : bool := false.

(** The scenario continued by a failed fetch of ["SIG1"]. *)
Definition sample_state_failed : @State string :=
  reducer sample_state (UpdateStatus "http://a" "SIG1" FetchFailed None).

(** The scenario continued by an [UpdateStatus] that carries an info
    together with [Fetching]. *)
Definition sample_state_info_while_Fetching : @State string :=
  dispatchAll (initialState "http://a")
    [FetchSignature "http://a" "SIG1";
     UpdateStatus "http://a" "SIG1" Fetching (Some sample_info)].

(** The connection cannot be made. *)
Definition env_connection_fails : @Env string string string :=
  {| env_NewConnection := fun _ => inl "invalid endpoint"%string;
     env_getSignatureStatus := fun _ _ _ =>
       inr {| context_slot := 9; value := Some sample_status |};
     env_getBlockTime := fun _ _ => inr (Some 1000) |}.

(** The status query finds the transaction, the block time is [null]. *)
Definition env_block_time_null : @Env string string string :=
  {| env_NewConnection := fun endpoint => inr endpoint;
     env_getSignatureStatus := fun _ _ _ =>
       inr {| context_slot := 9; value := Some sample_status |};
     env_getBlockTime := fun _ _ => inr None |}.

(** Environments for the test transactions.  Key pairs, public keys and
    buffers are strings; the cluster and its status are named by
    strings. *)
Definition sample_publicKey (account : string) : string :=
  ("pk:" +:+ account)%string.

(** The airdrop is granted, the transfer is rejected. *)
Definition provider_env_airdrop_only
  : @ProviderEnv string string string string string :=
  {| env_NewAccount := fun secretKey =>
       match secretKey with
       | Some bytes => inr ("account:" +:+ bytes)%string
       | None => inr "fresh"%string
       end;
     env_base58_decode := fun encoded => inr ("bytes:" +:+ encoded)%string;
     env_NewConnectionWith := fun endpoint _ => inr endpoint;
     env_requestAirdrop := fun _ _ _ => inr "SIG-AIRDROP"%string;
     env_sendAndConfirmTransaction := fun _ _ _ _ _ =>
       inl "transfer rejected"%string;
     env_fetchAccount := fun _ => inr tt |}.

(** The test key does not decode. *)
Definition provider_env_bad_key
  : @ProviderEnv string string string string string :=
  {| env_NewAccount := fun _ => inr "fresh"%string;
     env_base58_decode := fun _ => inl "Non-base58 character"%string;
     env_NewConnectionWith := fun endpoint _ => inr endpoint;
     env_requestAirdrop := fun _ _ _ => inr "SIG-AIRDROP"%string;
     env_sendAndConfirmTransaction := fun _ _ _ _ _ =>
       inr "SIG-TRANSFER"%string;
     env_fetchAccount := fun _ => inr tt |}.

(** The connection cannot be made. *)
Definition provider_env_no_connection
  : @ProviderEnv string string string string string :=
  {| env_NewAccount := fun _ => inr "fresh"%string;
     env_base58_decode := fun encoded => inr encoded;
     env_NewConnectionWith := fun _ _ => inl "invalid endpoint"%string;
     env_requestAirdrop := fun _ _ _ => inr "SIG-AIRDROP"%string;
     env_sendAndConfirmTransaction := fun _ _ _ _ _ =>
       inr "SIG-TRANSFER"%string;
     env_fetchAccount := fun _ => inr tt |}.

(** The airdrop is granted, fetching the account throws. *)
Definition provider_env_fetchAccount_fails
  : @ProviderEnv string string string string string :=
  {| env_NewAccount := fun _ => inr "fresh"%string;
     env_base58_decode := fun encoded => inr encoded;
     env_NewConnectionWith := fun endpoint _ => inr endpoint;
     env_requestAirdrop := fun _ _ _ => inr "SIG-AIRDROP"%string;
     env_sendAndConfirmTransaction := fun _ _ _ _ _ =>
       inr "SIG-TRANSFER"%string;
     env_fetchAccount := fun _ => inl "account fetch failed"%string |}.

(** * Properties *)

Section Properties.

Context {TransactionError JsError Connection : Type}.
Context (isCached : string -> string -> bool).
Context (CACHED_STATUSES : gmap string (@TransactionStatusInfo TransactionError)).

Implicit Types (state : @State TransactionError).
Implicit Types (action : @Action TransactionError).
Implicit Types (actions : list (@Action TransactionError)).
Implicit Types (transaction : @TransactionStatus TransactionError).
Implicit Types (i : option (@TransactionStatusInfo TransactionError)).
Implicit Types (env : @Env TransactionError JsError Connection).
Implicit Types (u sg : string) (fs : FetchStatus).
Implicit Types (m : gmap string (@TransactionStatus TransactionError)).

Local Abbreviation fetch := (fetchTransactionStatus isCached CACHED_STATUSES).
Local Abbreviation issued :=
  (@issued TransactionError JsError Connection isCached CACHED_STATUSES).
Local Abbreviation reachable :=
  (@reachable TransactionError JsError Connection isCached CACHED_STATUSES).

(** Unfolds a run of the fetcher down to the environment's answers. *)
Ltac unfold_fetch :=
  unfold trace, completion, exec, fetchTransactionStatus, dispatch,
    console_error, try_catch, await, trigger, get_info, set_info;
  unfold mbind, mret, M_bind, M_ret, bind, ret; simpl.

(** ** Property reads *)

Lemma read_own m sg transaction :
  m !! sg = Some transaction -> read m sg = Own transaction.
Proof. intros Hsg. unfold read. rewrite Hsg. reflexivity. Qed.

Lemma read_insert_eq m sg transaction :
  read (<[sg := transaction]> m) sg = Own transaction.
Proof. apply read_own, lookup_insert_eq. Qed.

Lemma read_insert_ne m sg sg' transaction :
  sg <> sg' -> read (<[sg := transaction]> m) sg' = read m sg'.
Proof. intros Hne. unfold read. rewrite lookup_insert_ne by exact Hne. reflexivity. Qed.

Lemma read_Undefined m sg :
  read m sg = Undefined <-> m !! sg = None /\ inherited sg = false.
Proof.
  unfold read. destruct (m !! sg); [| destruct (inherited sg)];
    split; try discriminate; try (intros [H1 H2]; discriminate);
    intros _; split; reflexivity.
Qed.

Lemma read_Inherited m sg :
  read m sg = Inherited <-> m !! sg = None /\ inherited sg = true.
Proof.
  unfold read. destruct (m !! sg); [| destruct (inherited sg)];
    split; try discriminate; try (intros [H1 H2]; discriminate);
    intros _; split; reflexivity.
Qed.

(** ** The reducer *)

Lemma reducer_Clear state u :
  reducer state (Clear u) = {| url := u; transactions := ∅ |}.
Proof. reflexivity. Qed.

Lemma reducer_stale state action :
  stale state action -> reducer state action = state.
Proof.
  intros [Hclear Hurl].
  destruct action as [u sg fs i | u sg | u]; simpl in *;
    try discriminate; rewrite bool_decide_eq_true_2; auto.
Qed.

Lemma reducer_FetchSignature state sg :
  reducer state (FetchSignature (url state) sg) =
  {| transactions :=
       <[sg := {| signature :=
                    match read (transactions state) sg with
                    | Own transaction => signature transaction
                    | Inherited => None
                    | Undefined => Some sg
                    end;
                  fetchStatus := Fetching;
                  info := None |}]> (transactions state);
     url := url state |}.
Proof.
  simpl. rewrite bool_decide_eq_false_2 by auto.
  destruct (read (transactions state) sg); reflexivity.
Qed.

Lemma reducer_UpdateStatus_known state sg fs i transaction :
  transactions state !! sg = Some transaction ->
  reducer state (UpdateStatus (url state) sg fs i) =
  {| transactions :=
       <[sg := {| signature := signature transaction;
                  fetchStatus := fs;
                  info := i |}]> (transactions state);
     url := url state |}.
Proof.
  intros Hsg. simpl. rewrite bool_decide_eq_false_2 by auto.
  rewrite (read_own _ _ _ Hsg). reflexivity.
Qed.

Lemma reducer_UpdateStatus_inherited state sg fs i :
  read (transactions state) sg = Inherited ->
  reducer state (UpdateStatus (url state) sg fs i) =
  {| transactions :=
       <[sg := {| signature := None;
                  fetchStatus := fs;
                  info := i |}]> (transactions state);
     url := url state |}.
Proof.
  intros Hsg. simpl. rewrite bool_decide_eq_false_2 by auto.
  rewrite Hsg. reflexivity.
Qed.

Lemma reducer_UpdateStatus_unknown state sg fs i :
  read (transactions state) sg = Undefined ->
  reducer state (UpdateStatus (url state) sg fs i) = state.
Proof.
  intros Hsg. simpl. rewrite bool_decide_eq_false_2 by auto.
  rewrite Hsg. reflexivity.
Qed.

(** C1. A dispatch other than [Clear] whose url differs from the store's
    returns the input state unchanged, and so does every sequence of such
    dispatches. *)
Theorem stale_dispatches_leave_state_unchanged state :
  (forall action, stale state action -> reducer state action = state) /\
  (forall actions,
     Forall (stale state) actions -> dispatchAll state actions = state).
Proof.
  split; [apply reducer_stale |].
  intros actions Hall. unfold dispatchAll.
  induction Hall as [| action actions Hstale _ IH]; simpl.
  - reflexivity.
  - rewrite reducer_stale by exact Hstale. exact IH.
Qed.

(** C3. The reducer does not drop every [UpdateStatus] whose signature
    has no record.  On the empty store for ["http://a"], the signature
    ["constructor"] has no record, yet [UpdateStatus] for it with the
    matching url reads [Object.prototype.constructor], takes the branch of
    a known record and stores a record, one without a signature. *)
Theorem UpdateStatus_for_constructor_creates_a_record :
  transactions (@initialState string "http://a") !! "constructor"%string
    = None /\
  transactions
    (reducer (@initialState string "http://a")
       (UpdateStatus "http://a" "constructor" Fetched None))
    !! "constructor"%string =
    Some {| signature := None; fetchStatus := Fetched; info := None |}.
Proof. split; vm_compute; reflexivity. Qed.

(** X25. With a matching url, [UpdateStatus] for a signature that has no
    record is dropped exactly when the signature is not the name of a
    member of [Object.prototype]: then the state is returned as it was,
    whereas [FetchSignature] creates a record.  For a name of
    [Object.prototype] it stores a record that has the action's
    fetchStatus and info and no signature. *)
Theorem UpdateStatus_without_record state u sg fs i :
  u = url state ->
  transactions state !! sg = None ->
  (inherited sg = false ->
   reducer state (UpdateStatus u sg fs i) = state /\
   transactions (reducer state (FetchSignature u sg)) !! sg =
     Some {| signature := Some sg; fetchStatus := Fetching; info := None |}) /\
  (inherited sg = true ->
   transactions (reducer state (UpdateStatus u sg fs i)) !! sg =
     Some {| signature := None; fetchStatus := fs; info := i |}).
Proof.
  intros -> Hsg. split; intros Hin.
  - assert (Hread : read (transactions state) sg = Undefined)
      by (apply read_Undefined; auto).
    rewrite reducer_UpdateStatus_unknown by exact Hread.
    rewrite reducer_FetchSignature, Hread. simpl.
    rewrite lookup_insert_eq. auto.
  - assert (Hread : read (transactions state) sg = Inherited)
      by (apply read_Inherited; auto).
    rewrite reducer_UpdateStatus_inherited by exact Hread. simpl.
    apply lookup_insert_eq.
Qed.

(** C4. [FetchSignature] does not always add a record with the action's
    signature when the signature has none.  On the empty store for
    ["http://a"], [FetchSignature] for ["constructor"] reads
    [Object.prototype.constructor], takes the branch that resets a known
    record, and stores [{fetchStatus: Fetching, info: undefined}] with no
    signature field. *)
Theorem FetchSignature_for_constructor_stores_no_signature :
  transactions (@initialState string "http://a") !! "constructor"%string
    = None /\
  transactions
    (reducer (@initialState string "http://a")
       (FetchSignature "http://a" "constructor"))
    !! "constructor"%string =
    Some {| signature := None; fetchStatus := Fetching; info := None |}.
Proof. split; vm_compute; reflexivity. Qed.

(** X26. With a matching url, [FetchSignature] resets an existing record
    to [Fetching] without info and keeps its signature field; for a
    signature without a record it adds a [Fetching] record without info,
    which carries the signature unless the signature is the name of a
    member of [Object.prototype]; every other entry and the url are as
    they were. *)
Theorem FetchSignature_creates_or_resets state u sg :
  u = url state ->
  (transactions state !! sg = None ->
   transactions (reducer state (FetchSignature u sg)) !! sg =
     Some {| signature := if inherited sg then None else Some sg;
             fetchStatus := Fetching;
             info := None |}) /\
  (forall transaction,
     transactions state !! sg = Some transaction ->
     transactions (reducer state (FetchSignature u sg)) !! sg =
       Some {| signature := signature transaction;
               fetchStatus := Fetching;
               info := None |}) /\
  (forall sg',
     sg' <> sg ->
     transactions (reducer state (FetchSignature u sg)) !! sg' =
       transactions state !! sg') /\
  url (reducer state (FetchSignature u sg)) = url state.
Proof.
  intros ->. rewrite reducer_FetchSignature. simpl.
  repeat split.
  - intros Hsg. unfold read. rewrite Hsg. rewrite lookup_insert_eq.
    destruct (inherited sg); reflexivity.
  - intros transaction Hsg. rewrite (read_own _ _ _ Hsg).
    apply lookup_insert_eq.
  - intros sg' Hne. apply lookup_insert_ne. congruence.
Qed.

(** C5. With a matching url, [UpdateStatus] for a signature that has a
    record overwrites the record's fetchStatus and info with the action's
    (info possibly undefined) and nothing else: the signature field, every
    other entry and the url are as they were. *)
Theorem UpdateStatus_overwrites_status_and_info state u sg fs i transaction :
  u = url state ->
  transactions state !! sg = Some transaction ->
  transactions (reducer state (UpdateStatus u sg fs i)) !! sg =
    Some {| signature := signature transaction;
            fetchStatus := fs;
            info := i |} /\
  (forall sg',
     sg' <> sg ->
     transactions (reducer state (UpdateStatus u sg fs i)) !! sg' =
       transactions state !! sg') /\
  url (reducer state (UpdateStatus u sg fs i)) = url state.
Proof.
  intros -> Hsg.
  rewrite (reducer_UpdateStatus_known _ _ _ _ _ Hsg). simpl.
  repeat split.
  - apply lookup_insert_eq.
  - intros sg' Hne. apply lookup_insert_ne. congruence.
Qed.

(** ** Key coherence *)

Lemma key_coherent_initial u : key_coherent (@initialState TransactionError u).
Proof. apply map_Forall_empty. Qed.

Lemma key_coherent_reducer state action :
  (forall sg, action_signature action = Some sg -> inherited sg = false) ->
  key_coherent state -> key_coherent (reducer state action).
Proof.
  unfold key_coherent. intros Hname Hco.
  destruct action as [u sg fs i | u sg | u]; simpl;
    [| | apply map_Forall_empty];
    case_bool_decide; try exact Hco;
    specialize (Hname sg eq_refl);
    unfold read; rewrite Hname;
    destruct (transactions state !! sg) as [transaction |] eqn:Hsg;
    simpl; try exact Hco;
    apply map_Forall_insert_2; try exact Hco; simpl;
    try reflexivity; exact (Hco _ _ Hsg).
Qed.

(** C10. Key coherence is not an invariant of the reducer.  The empty
    store for ["http://a"] is key coherent; after [FetchSignature] for
    ["constructor"] the record stored under ["constructor"] has no
    signature, so the store is not, and [useTransactionStatus] returns
    that record for ["constructor"].  On the empty store
    [useTransactionStatus] returns for ["toString"] the member of
    [Object.prototype], which is no record at all. *)
Theorem FetchSignature_for_constructor_breaks_key_coherence :
  key_coherent (@initialState string "http://a") /\
  ~ key_coherent
      (reducer (@initialState string "http://a")
         (FetchSignature "http://a" "constructor")) /\
  useTransactionStatus
    (reducer (@initialState string "http://a")
       (FetchSignature "http://a" "constructor")) "constructor" =
    Own {| signature := None; fetchStatus := Fetching; info := None |} /\
  useTransactionStatus (@initialState string "http://a") "toString" =
    Inherited.
Proof.
  split; [apply map_Forall_empty |].
  assert (Hrecord :
    transactions
      (reducer (@initialState string "http://a")
         (FetchSignature "http://a" "constructor"))
      !! "constructor"%string =
      Some {| signature := None; fetchStatus := Fetching; info := None |})
    by (vm_compute; reflexivity).
  split; [| split].
  - intros Hco. specialize (Hco _ _ Hrecord). discriminate Hco.
  - vm_compute. reflexivity.
  - vm_compute. reflexivity.
Qed.

(** X27. Key coherence is preserved by every queue of dispatches none of
    which carries the name of a member of [Object.prototype] as its
    signature: when every record of the store is kept under its own
    signature before, so it is after, and [useTransactionStatus] returns
    for an own key a record with that signature. *)
Theorem key_coherence_off_Object_prototype state actions :
  Forall
    (fun action =>
       forall sg, action_signature action = Some sg -> inherited sg = false)
    actions ->
  key_coherent state ->
  key_coherent (dispatchAll state actions) /\
  (forall sg transaction,
     useTransactionStatus (dispatchAll state actions) sg = Own transaction ->
     signature transaction = Some sg).
Proof.
  intros Hall Hco.
  assert (Hco' : key_coherent (dispatchAll state actions)).
  { unfold dispatchAll. revert state Hco.
    induction Hall as [| action actions Hname _ IH]; intros state Hco; simpl.
    - exact Hco.
    - apply IH, key_coherent_reducer; assumption. }
  split; [exact Hco' |].
  intros sg transaction. unfold useTransactionStatus, read.
  destruct (transactions (dispatchAll state actions) !! sg)
    as [transaction' |] eqn:Hsg.
  - intros [= <-]. exact (Hco' _ _ Hsg).
  - destruct (inherited sg); discriminate.
Qed.

(** ** The fetcher *)

Lemma exec_cached env sg u :
  isCached u sg = true ->
  exec env (fetch sg u) =
  ([call (Dispatch (FetchSignature u sg));
    call (Dispatch (UpdateStatus u sg Fetched (CACHED_STATUSES !! sg)))],
   ({| local_info := CACHED_STATUSES !! sg |}, Normal tt)).
Proof. intros Hc. unfold_fetch. rewrite Hc. reflexivity. Qed.

Lemma exec_connection_fails env sg u error :
  isCached u sg = false ->
  env_NewConnection env u = inl error ->
  exec env (fetch sg u) =
  ([call (Dispatch (FetchSignature u sg));
    call (NewConnection u);
    call (ConsoleError
            [LogString "Failed to fetch transaction status"; LogError error]);
    call (Dispatch (UpdateStatus u sg FetchFailed None))],
   ({| local_info := None |}, Normal tt)).
Proof. intros Hc Hn. unfold_fetch. rewrite Hc. simpl. rewrite Hn. reflexivity. Qed.

Lemma exec_status_fails env sg u connection error :
  isCached u sg = false ->
  env_NewConnection env u = inr connection ->
  env_getSignatureStatus env connection sg true = inl error ->
  exec env (fetch sg u) =
  ([call (Dispatch (FetchSignature u sg));
    call (NewConnection u);
    call (GetSignatureStatus connection sg true);
    call (ConsoleError
            [LogString "Failed to fetch transaction status"; LogError error]);
    call (Dispatch (UpdateStatus u sg FetchFailed None))],
   ({| local_info := None |}, Normal tt)).
Proof.
  intros Hc Hn Hs. unfold_fetch. rewrite Hc. simpl. rewrite Hn. simpl.
  rewrite Hs. reflexivity.
Qed.

Lemma exec_not_found env sg u connection response :
  isCached u sg = false ->
  env_NewConnection env u = inr connection ->
  env_getSignatureStatus env connection sg true = inr response ->
  value response = None ->
  exec env (fetch sg u) =
  ([call (Dispatch (FetchSignature u sg));
    call (NewConnection u);
    call (GetSignatureStatus connection sg true);
    call (Dispatch (UpdateStatus u sg Fetched None))],
   ({| local_info := None |}, Normal tt)).
Proof.
  intros Hc Hn Hs Hv. unfold_fetch. rewrite Hc. simpl. rewrite Hn. simpl.
  rewrite Hs. simpl. rewrite Hv. reflexivity.
Qed.

Lemma exec_found env sg u connection response v :
  isCached u sg = false ->
  env_NewConnection env u = inr connection ->
  env_getSignatureStatus env connection sg true = inr response ->
  value response = Some v ->
  let blockTime := env_getBlockTime env connection (value_slot v) in
  exec env (fetch sg u) =
  ([call (Dispatch (FetchSignature u sg));
    call (NewConnection u);
    call (GetSignatureStatus connection sg true);
    call (GetBlockTime connection (value_slot v))] ++
   match blockTime with
   | inl error =>
     [call (ConsoleError
              [LogString "Failed to fetch block time for slot ";
               LogNumber (value_slot v);
               LogString ":";
               LogError error])]
   | inr _ => []
   end ++
   [call (Dispatch
            (UpdateStatus u sg Fetched (Some (resolved_info v blockTime))))],
   ({| local_info := Some (resolved_info v blockTime) |}, Normal tt)).
Proof.
  intros Hc Hn Hs Hv. unfold_fetch. rewrite Hc. simpl. rewrite Hn. simpl.
  rewrite Hs. simpl. rewrite Hv. simpl.
  destruct (env_getBlockTime env connection (value_slot v)) as [error | [t |]];
    reflexivity.
Qed.

(** The five lemmas above cover every environment. *)
Lemma exec_cases env sg u :
  exists fs i calls locals,
    exec env (fetch sg u) = (calls, (locals, Normal tt)) /\
    dispatched calls = [FetchSignature u sg; UpdateStatus u sg fs i] /\
    (fs <> Fetched -> i = None).
Proof.
  destruct (isCached u sg) eqn:Hc.
  { eexists _, _, _, _. rewrite (exec_cached _ _ _ Hc).
    split; [reflexivity |]. split; [reflexivity |]. intros Hne. now elim Hne. }
  destruct (env_NewConnection env u) as [error | connection] eqn:Hn.
  { eexists _, _, _, _. rewrite (exec_connection_fails _ _ _ _ Hc Hn).
    split; [reflexivity |]. split; [reflexivity |]. reflexivity. }
  destruct (env_getSignatureStatus env connection sg true)
    as [error | response] eqn:Hs.
  { eexists _, _, _, _. rewrite (exec_status_fails _ _ _ _ _ Hc Hn Hs).
    split; [reflexivity |]. split; [reflexivity |]. reflexivity. }
  destruct (value response) as [v |] eqn:Hv.
  - exists Fetched,
      (Some (resolved_info v (env_getBlockTime env connection (value_slot v)))).
    eexists _, _. rewrite (exec_found _ _ _ _ _ _ Hc Hn Hs Hv).
    split; [reflexivity |]. split; [| intros Hne; now elim Hne].
    destruct (env_getBlockTime env connection (value_slot v)); reflexivity.
  - eexists _, _, _, _. rewrite (exec_not_found _ _ _ _ _ Hc Hn Hs Hv).
    split; [reflexivity |]. split; [reflexivity |]. intros Hne. now elim Hne.
Qed.

Lemma fetch_completes_normally env sg u :
  completion env (fetch sg u) = Normal tt.
Proof.
  destruct (exec_cases env sg u) as (fs & i & calls & locals & Hexec & _).
  unfold completion. rewrite Hexec. reflexivity.
Qed.

(** C6. When the signature is not cached and the status query fails, the
    fetcher logs the error, dispatches [UpdateStatus] with [FetchFailed]
    and no info as its last call, and completes normally; no run of the
    fetcher, in any environment, completes with a thrown error. *)
Theorem status_query_failure_is_FetchFailed env sg u connection error :
  isCached u sg = false ->
  env_NewConnection env u = inr connection ->
  env_getSignatureStatus env connection sg true = inl error ->
  trace env (fetch sg u) =
    [call (Dispatch (FetchSignature u sg));
     call (NewConnection u);
     call (GetSignatureStatus connection sg true);
     call (ConsoleError
             [LogString "Failed to fetch transaction status"; LogError error]);
     call (Dispatch (UpdateStatus u sg FetchFailed None))] /\
  completion env (fetch sg u) = Normal tt /\
  (forall env' sg' u', completion env' (fetch sg' u') = Normal tt).
Proof.
  intros Hc Hn Hs. unfold trace, completion at 1.
  rewrite (exec_status_fails _ _ _ _ _ Hc Hn Hs). simpl.
  split; [reflexivity |]. split; [reflexivity |].
  intros env' sg' u'. apply fetch_completes_normally.
Qed.

(** C7. When the status service reports a match, the fetcher ends by
    dispatching [UpdateStatus] with [Fetched] and an info whose slot is
    the reported slot and whose confirmations are the reported number, or
    ["max"] when none is reported; when the block-time query for that slot
    fails, the failure is logged, the timestamp is ["unavailable"], and
    slot, confirmations and [Fetched] are as before. *)
Theorem match_resolves_info env sg u connection response v :
  isCached u sg = false ->
  env_NewConnection env u = inr connection ->
  env_getSignatureStatus env connection sg true = inr response ->
  value response = Some v ->
  exists resolved,
    dispatched (trace env (fetch sg u)) =
      [FetchSignature u sg; UpdateStatus u sg Fetched (Some resolved)] /\
    last (trace env (fetch sg u)) =
      Some (call (Dispatch (UpdateStatus u sg Fetched (Some resolved)))) /\
    completion env (fetch sg u) = Normal tt /\
    slot resolved = value_slot v /\
    confirmations resolved =
      match value_confirmations v with
      | Some n => ConfirmationsNumber n
      | None => ConfirmationsMax
      end /\
    err (result resolved) = value_err v /\
    (forall t,
       env_getBlockTime env connection (value_slot v) = inr (Some t) ->
       timestamp resolved = TimestampNumber t) /\
    (forall error,
       env_getBlockTime env connection (value_slot v) = inl error ->
       timestamp resolved = TimestampUnavailable /\
       In (call (ConsoleError
                   [LogString "Failed to fetch block time for slot ";
                    LogNumber (value_slot v);
                    LogString ":";
                    LogError error]))
          (trace env (fetch sg u))).
Proof.
  intros Hc Hn Hs Hv.
  exists (resolved_info v (env_getBlockTime env connection (value_slot v))).
  unfold trace, completion. rewrite (exec_found _ _ _ _ _ _ Hc Hn Hs Hv).
  simpl.
  destruct (env_getBlockTime env connection (value_slot v))
    as [error | blockTime]; simpl.
  - do 6 (split; [reflexivity |]). split; [discriminate |].
    intros error' [= <-]. split; [reflexivity |].
    do 4 right. left. reflexivity.
  - do 6 (split; [reflexivity |]). split; [| discriminate].
    intros t [= ->]. reflexivity.
Qed.

(** C8. When the signature is not cached and the status service answers
    that no transaction matches, the fetcher ends by dispatching
    [UpdateStatus] with [Fetched] and no info, without logging anything. *)
Theorem not_found_is_Fetched_without_info env sg u connection response :
  isCached u sg = false ->
  env_NewConnection env u = inr connection ->
  env_getSignatureStatus env connection sg true = inr response ->
  value response = None ->
  trace env (fetch sg u) =
    [call (Dispatch (FetchSignature u sg));
     call (NewConnection u);
     call (GetSignatureStatus connection sg true);
     call (Dispatch (UpdateStatus u sg Fetched None))] /\
  completion env (fetch sg u) = Normal tt.
Proof.
  intros Hc Hn Hs Hv. unfold trace, completion.
  rewrite (exec_not_found _ _ _ _ _ Hc Hn Hs Hv). split; reflexivity.
Qed.

(** C9. For a (url, signature) pair that [isCached] recognises, the
    fetcher makes two calls only, the [FetchSignature] dispatch and the
    dispatch of [UpdateStatus] with [Fetched] and [CACHED_STATUSES[signature]]:
    no connection is made and neither service is queried, whatever the
    environment. *)
Theorem cached_signature_short_circuits env sg u :
  isCached u sg = true ->
  trace env (fetch sg u) =
    [call (Dispatch (FetchSignature u sg));
     call (Dispatch (UpdateStatus u sg Fetched (CACHED_STATUSES !! sg)))] /\
  Forall (fun c => is_network c = false) (trace env (fetch sg u)) /\
  completion env (fetch sg u) = Normal tt.
Proof.
  intros Hc. unfold trace, completion. rewrite (exec_cached _ _ _ Hc). simpl.
  split; [reflexivity |]. split; [| reflexivity].
  repeat constructor.
Qed.

(** ** Info only with [Fetched] *)

Lemma issued_UpdateStatus u sg fs i :
  issued (UpdateStatus u sg fs i) ->
  fs <> Fetched -> i = None.
Proof.
  inversion 1 as [| env sg' u' action Hin]; subst.
  destruct (exec_cases env sg' u')
    as (fs' & i' & calls & locals & Hexec & Hdisp & Hshape).
  unfold trace in Hin. rewrite Hexec in Hin. simpl in Hin.
  rewrite Hdisp in Hin.
  destruct Hin as [Hin | [Hin | []]]; [discriminate |].
  injection Hin as -> -> -> ->. exact Hshape.
Qed.

Lemma info_only_when_Fetched_initial u :
  info_only_when_Fetched (@initialState TransactionError u).
Proof. apply map_Forall_empty. Qed.

Lemma info_only_when_Fetched_reducer state action :
  match action with
  | UpdateStatus _ _ fs i => fs <> Fetched -> i = None
  | _ => True
  end ->
  info_only_when_Fetched state ->
  info_only_when_Fetched (reducer state action).
Proof.
  unfold info_only_when_Fetched. intros Hshape Hinv.
  destruct action as [u sg fs i | u sg | u]; simpl;
    [| | apply map_Forall_empty];
    case_bool_decide; try exact Hinv;
    destruct (is_truthy (read (transactions state) sg));
    simpl; try exact Hinv;
    apply map_Forall_insert_2; try exact Hinv; simpl; auto.
Qed.

(** C2, as the code has it. In every store state reached from the initial
    empty state by dispatches the module issues ([Clear], and the
    [FetchSignature] and [UpdateStatus] dispatches of
    [fetchTransactionStatus], in any order), a record whose fetchStatus is
    not [Fetched] has no info. *)
Theorem issued_dispatches_keep_info_only_when_Fetched state :
  reachable state ->
  info_only_when_Fetched state.
Proof.
  induction 1 as [u | state action _ IH Hissued].
  - apply info_only_when_Fetched_initial.
  - apply info_only_when_Fetched_reducer; [| exact IH].
    destruct action as [u sg fs i | u sg | u]; [| exact I | exact I].
    exact (issued_UpdateStatus _ _ _ _ Hissued).
Qed.

End Properties.

(** * The properties on the sample data *)

(** Decides a closed decidable proposition by evaluation. *)
Ltac by_evaluation :=
  match goal with
  | |- ?P => apply (bool_decide_unpack P); vm_compute; exact I
  end.

Lemma stale_dispatches_leave_sample_state_unchanged :
  stale sample_state (UpdateStatus "http://b" "SIG1" Fetched (Some sample_info)) /\
  stale sample_state (FetchSignature "http://b" "SIG2") /\
  reducer sample_state (UpdateStatus "http://b" "SIG1" Fetched (Some sample_info))
    = sample_state /\
  dispatchAll sample_state
    [FetchSignature "http://b" "SIG2";
     UpdateStatus "http://b" "SIG1" Fetched (Some sample_info)]
    = sample_state.
Proof.
  assert (H1 : stale sample_state
                 (UpdateStatus "http://b" "SIG1" Fetched (Some sample_info)))
    by by_evaluation.
  assert (H2 : stale sample_state (FetchSignature "http://b" "SIG2"))
    by by_evaluation.
  destruct (stale_dispatches_leave_state_unchanged sample_state)
    as [Hone Hall].
  split; [exact H1 |]. split; [exact H2 |]. split.
  - apply Hone, H1.
  - apply Hall.
    apply Forall_cons_2; [exact H2 |].
    apply Forall_cons_2; [exact H1 | apply Forall_nil_2].
Defined.

Lemma UpdateStatus_without_record_on_sample_state :
  "http://a"%string = url sample_state /\
  transactions sample_state !! "SIG2"%string = None /\
  inherited "SIG2" = false /\
  reducer sample_state (UpdateStatus "http://a" "SIG2" Fetched (Some sample_info))
    = sample_state /\
  transactions (reducer sample_state (FetchSignature "http://a" "SIG2"))
    !! "SIG2"%string =
    Some {| signature := Some "SIG2"%string;
            fetchStatus := Fetching;
            info := None |}.
Proof.
  assert (H1 : "http://a"%string = url sample_state) by reflexivity.
  assert (H2 : transactions sample_state !! "SIG2"%string = None)
    by (vm_compute; reflexivity).
  assert (H3 : inherited "SIG2" = false) by (vm_compute; reflexivity).
  destruct (proj1 (UpdateStatus_without_record sample_state
                     "http://a" "SIG2" Fetched (Some sample_info) H1 H2) H3)
    as (Hsame & Hfetch).
  split; [exact H1 |]. split; [exact H2 |]. split; [exact H3 |].
  split; [exact Hsame | exact Hfetch].
Defined.

Lemma FetchSignature_on_sample_state :
  "http://a"%string = url sample_state_failed /\
  transactions sample_state_failed !! "SIG1"%string =
    Some {| signature := Some "SIG1"%string; fetchStatus := FetchFailed; info := None |} /\
  transactions (reducer sample_state_failed (FetchSignature "http://a" "SIG1"))
    !! "SIG1"%string =
    Some {| signature := Some "SIG1"%string; fetchStatus := Fetching; info := None |}.
Proof.
  assert (H1 : "http://a"%string = url sample_state_failed) by reflexivity.
  assert (H2 : transactions sample_state_failed !! "SIG1"%string =
               Some {| signature := Some "SIG1"%string;
                       fetchStatus := FetchFailed;
                       info := None |})
    by (vm_compute; reflexivity).
  destruct (FetchSignature_creates_or_resets sample_state_failed
              "http://a" "SIG1" H1)
    as (_ & Hreset & _ & _).
  split; [exact H1 |]. split; [exact H2 |]. exact (Hreset _ H2).
Defined.

Lemma UpdateStatus_on_sample_state :
  "http://a"%string = url sample_state /\
  transactions sample_state !! "SIG1"%string =
    Some {| signature := Some "SIG1"%string; fetchStatus := Fetching; info := None |} /\
  transactions
    (reducer sample_state
       (UpdateStatus "http://a" "SIG1" Fetched (Some sample_info)))
    !! "SIG1"%string =
    Some {| signature := Some "SIG1"%string;
            fetchStatus := Fetched;
            info := Some sample_info |}.
Proof.
  assert (H1 : "http://a"%string = url sample_state) by reflexivity.
  assert (H2 : transactions sample_state !! "SIG1"%string =
               Some {| signature := Some "SIG1"%string;
                       fetchStatus := Fetching;
                       info := None |})
    by (vm_compute; reflexivity).
  destruct (UpdateStatus_overwrites_status_and_info sample_state
              "http://a" "SIG1" Fetched (Some sample_info) _ H1 H2)
    as (Hrecord & _ & _).
  split; [exact H1 |]. split; [exact H2 |]. exact Hrecord.
Defined.

Lemma key_coherence_of_sample_state :
  key_coherent sample_state /\
  key_coherent
    (dispatchAll sample_state
       [UpdateStatus "http://a" "SIG1" Fetched (Some sample_info);
        FetchSignature "http://a" "SIG2"]).
Proof.
  assert (H1 : key_coherent sample_state) by by_evaluation.
  split; [exact H1 |].
  refine (proj1 (key_coherence_off_Object_prototype sample_state
                   [UpdateStatus "http://a" "SIG1" Fetched (Some sample_info);
                    FetchSignature "http://a" "SIG2"] _ H1)).
  apply Forall_cons_2; [| apply Forall_cons_2; [| apply Forall_nil_2]];
    intros sg [= <-]; vm_compute; reflexivity.
Defined.

Lemma status_query_failure_on_sample :
  never_cached "http://a" "SIG1" = false /\
  env_NewConnection env_status_fails "http://a" = inr "http://a"%string /\
  env_getSignatureStatus env_status_fails "http://a" "SIG1" true =
    inl "status query failed"%string /\
  dispatched
    (trace env_status_fails
       (fetchTransactionStatus never_cached ∅ "SIG1" "http://a")) =
    [FetchSignature "http://a" "SIG1";
     UpdateStatus "http://a" "SIG1" FetchFailed None].
Proof.
  do 3 (split; [reflexivity |]).
  rewrite (proj1 (status_query_failure_is_FetchFailed never_cached ∅
                    env_status_fails "SIG1" "http://a" "http://a"
                    "status query failed"
                    eq_refl eq_refl eq_refl)).
  reflexivity.
Defined.

Lemma match_resolves_info_on_sample :
  never_cached "http://a" "SIG1" = false /\
  env_NewConnection env_block_time_fails "http://a" = inr "http://a"%string /\
  env_getSignatureStatus env_block_time_fails "http://a" "SIG1" true =
    inr {| context_slot := 9; value := Some sample_status |} /\
  exists resolved,
    dispatched
      (trace env_block_time_fails
         (fetchTransactionStatus never_cached ∅ "SIG1" "http://a")) =
      [FetchSignature "http://a" "SIG1";
       UpdateStatus "http://a" "SIG1" Fetched (Some resolved)] /\
    slot resolved = 5 /\
    confirmations resolved = ConfirmationsMax /\
    timestamp resolved = TimestampUnavailable.
Proof.
  do 3 (split; [reflexivity |]).
  destruct (match_resolves_info never_cached ∅ env_block_time_fails
              "SIG1" "http://a" "http://a"
              {| context_slot := 9; value := Some sample_status |}
              sample_status eq_refl eq_refl eq_refl eq_refl)
    as (resolved & Hdisp & _ & _ & Hslot & Hconf & _ & _ & Hfail).
  exists resolved.
  split; [exact Hdisp |]. split; [exact Hslot |]. split; [exact Hconf |].
  exact (proj1 (Hfail "block time failed"%string eq_refl)).
Defined.

Lemma not_found_on_sample :
  never_cached "http://a" "SIG1" = false /\
  env_NewConnection env_not_found "http://a" = inr "http://a"%string /\
  env_getSignatureStatus env_not_found "http://a" "SIG1" true =
    inr {| context_slot := 9; value := None |} /\
  dispatched
    (trace env_not_found
       (fetchTransactionStatus never_cached ∅ "SIG1" "http://a")) =
    [FetchSignature "http://a" "SIG1";
     UpdateStatus "http://a" "SIG1" Fetched None].
Proof.
  do 3 (split; [reflexivity |]).
  rewrite (proj1 (not_found_is_Fetched_without_info never_cached ∅
                    env_not_found "SIG1" "http://a" "http://a"
                    {| context_slot := 9; value := None |}
                    eq_refl eq_refl eq_refl eq_refl)).
  reflexivity.
Defined.

Lemma cached_signature_on_sample :
  sample_isCached "http://a" "SIG1" = true /\
  trace env_status_fails
    (fetchTransactionStatus sample_isCached sample_CACHED_STATUSES
       "SIG1" "http://a") =
    [call (Dispatch (FetchSignature "http://a" "SIG1"));
     call (Dispatch
             (UpdateStatus "http://a" "SIG1" Fetched (Some sample_info)))].
Proof.
  split; [reflexivity |].
  exact (proj1 (cached_signature_short_circuits sample_isCached
                  sample_CACHED_STATUSES env_status_fails
                  "SIG1" "http://a" eq_refl)).
Defined.

Lemma sample_state_failed_reachable :
  @reachable string string string never_cached ∅ sample_state_failed /\
  info_only_when_Fetched sample_state_failed.
Proof.
  assert (H : @reachable string string string never_cached ∅
                sample_state_failed).
  { change sample_state_failed with
      (reducer
         (reducer
            (reducer (@initialState string "http://b") (Clear "http://a"))
            (FetchSignature "http://a" "SIG1"))
         (UpdateStatus "http://a" "SIG1" FetchFailed None)).
    apply reachable_dispatch; [apply reachable_dispatch |].
    - apply reachable_dispatch; [apply reachable_initial | apply issued_Clear].
    - apply (issued_fetch _ _ env_status_fails "SIG1" "http://a").
      left. reflexivity.
    - apply (issued_fetch _ _ env_status_fails "SIG1" "http://a").
      right. left. reflexivity. }
  split; [exact H |].
  exact (issued_dispatches_keep_info_only_when_Fetched never_cached ∅ _ H).
Defined.

(** C2, as stated, fails on the reducer alone: it stores whatever an
    [UpdateStatus] action carries, so two reducer transitions from the
    initial empty state leave a record that is [Fetching] and has an
    info. *)
Lemma reducer_stores_info_while_Fetching :
  transactions sample_state_info_while_Fetching !! "SIG1"%string =
    Some {| signature := Some "SIG1"%string;
            fetchStatus := Fetching;
            info := Some sample_info |} /\
  ~ info_only_when_Fetched sample_state_info_while_Fetching.
Proof.
  assert (H : transactions sample_state_info_while_Fetching !! "SIG1"%string =
              Some {| signature := Some "SIG1"%string;
                      fetchStatus := Fetching;
                      info := Some sample_info |})
    by (vm_compute; reflexivity).
  split; [exact H |].
  intros Hinv.
  assert (Hnone : Some sample_info = None).
  { apply (Hinv _ _ H). discriminate. }
  discriminate Hnone.
Qed.

(** * Further properties of the store *)

Section ReducerProperties.

Context {TransactionError : Type}.

Implicit Types (state : @State TransactionError).
Implicit Types (action : @Action TransactionError).
Implicit Types (actions : list (@Action TransactionError)).
Implicit Types (transaction : @TransactionStatus TransactionError).
Implicit Types (i : option (@TransactionStatusInfo TransactionError)).
Implicit Types (u sg : string) (fs : FetchStatus).

Local Set Warnings "-clear-no-such-hyp".

(** ** The reducer on one action *)

(** What the reducer does to a store on the action's cluster. *)
Lemma reducer_current state action :
  is_Clear action = false ->
  action_url action = url state ->
  url (reducer state action) = url state /\
  transactions (reducer state action) =
    match action with
    | FetchSignature _ sg =>
      <[sg := {| signature :=
                   if is_truthy (read (transactions state) sg)
                   then spread_signature (read (transactions state) sg)
                   else Some sg;
                 fetchStatus := Fetching;
                 info := None |}]> (transactions state)
    | UpdateStatus _ sg fs i =>
      if is_truthy (read (transactions state) sg) then
        <[sg := {| signature :=
                     spread_signature (read (transactions state) sg);
                   fetchStatus := fs;
                   info := i |}]> (transactions state)
      else transactions state
    | Clear _ => ∅
    end.
Proof.
  intros Hclear Hurl.
  destruct action as [u sg fs i | u sg | u]; simpl in *; try discriminate;
    rewrite bool_decide_eq_false_2 by (intros Hne; exact (Hne Hurl));
    destruct (is_truthy (read (transactions state) sg)); simpl; auto.
Qed.

Lemma reducer_url state action :
  url (reducer state action) =
  if is_Clear action then action_url action else url state.
Proof.
  destruct action as [u sg fs i | u sg | u]; simpl; try reflexivity;
    case_bool_decide; try reflexivity;
    destruct (is_truthy (read (transactions state) sg)); reflexivity.
Qed.

Lemma State_eq state1 state2 :
  url state1 = url state2 ->
  transactions state1 = transactions state2 ->
  state1 = state2.
Proof. destruct state1, state2; simpl; intros -> ->; reflexivity. Qed.

(** X1. Dispatching the same action twice in a row leaves the store as
    the first dispatch left it. *)
Theorem reducer_idempotent state action :
  reducer (reducer state action) action = reducer state action.
Proof.
  destruct (is_Clear action) eqn:Hclear.
  { destruct action; try discriminate; reflexivity. }
  destruct (decide (action_url action = url state)) as [Hu | Hu].
  2: { rewrite !(reducer_stale state action) by (split; assumption).
       reflexivity. }
  destruct (reducer_current state action Hclear Hu) as [Hurl Hmap].
  assert (Hu' : action_url action = url (reducer state action))
    by congruence.
  destruct (reducer_current _ action Hclear Hu') as [Hurl' Hmap'].
  apply State_eq; [exact Hurl' |].
  rewrite Hmap'. rewrite Hmap.
  destruct action as [u sg fs i | u sg | u]; try discriminate.
  - destruct (is_truthy (read (transactions state) sg)) eqn:Htruthy.
    + rewrite read_insert_eq. simpl. apply insert_insert_eq.
    + rewrite Htruthy. reflexivity.
  - rewrite read_insert_eq. simpl. apply insert_insert_eq.
Qed.

Lemma reducer_stale_after state action action' :
  is_Clear action = false ->
  stale state action' ->
  reducer (reducer state action) action' = reducer state action.
Proof.
  intros Hclear [Hclear' Hu']. apply reducer_stale. split; [exact Hclear' |].
  rewrite reducer_url, Hclear. exact Hu'.
Qed.

Lemma dispatches_commute_aux state action1 action2 :
  is_Clear action1 = false ->
  is_Clear action2 = false ->
  action_signature action1 <> action_signature action2 ->
  reducer (reducer state action1) action2 =
  reducer (reducer state action2) action1.
Proof.
  intros Hc1 Hc2 Hsig.
  destruct (decide (action_url action1 = url state)) as [Hu1 | Hu1].
  2: { rewrite (reducer_stale_after state action2 action1 Hc2)
         by (split; assumption).
       rewrite (reducer_stale state action1) by (split; assumption).
       reflexivity. }
  destruct (decide (action_url action2 = url state)) as [Hu2 | Hu2].
  2: { rewrite (reducer_stale_after state action1 action2 Hc1)
         by (split; assumption).
       rewrite (reducer_stale state action2) by (split; assumption).
       reflexivity. }
  destruct (reducer_current state action1 Hc1 Hu1) as [Hurl1 Hmap1].
  destruct (reducer_current state action2 Hc2 Hu2) as [Hurl2 Hmap2].
  assert (Hu12 : action_url action2 = url (reducer state action1))
    by congruence.
  assert (Hu21 : action_url action1 = url (reducer state action2))
    by congruence.
  destruct (reducer_current _ action2 Hc2 Hu12) as [Hurl12 Hmap12].
  destruct (reducer_current _ action1 Hc1 Hu21) as [Hurl21 Hmap21].
  apply State_eq; [congruence |].
  rewrite Hmap12, Hmap21, Hmap1, Hmap2.
  destruct action1 as [u1 sg1 fs1 i1 | u1 sg1 | u1]; try discriminate;
    destruct action2 as [u2 sg2 fs2 i2 | u2 sg2 | u2]; try discriminate;
    simpl in Hsig;
    assert (Hne : sg1 <> sg2) by congruence;
    destruct (is_truthy (read (transactions state) sg1)) eqn:Htruthy1;
    destruct (is_truthy (read (transactions state) sg2)) eqn:Htruthy2;
    repeat rewrite read_insert_ne by congruence;
    rewrite ?Htruthy1, ?Htruthy2; simpl;
    try reflexivity; apply insert_insert_ne; congruence.
Qed.

(** X2. Two dispatches for different signatures, neither of them a
    [Clear], can be reduced in either order: the resulting store is the
    same. *)
Theorem dispatches_for_different_signatures_commute state action1 action2 :
  is_Clear action1 = false ->
  is_Clear action2 = false ->
  action_signature action1 <> action_signature action2 ->
  reducer (reducer state action1) action2 =
  reducer (reducer state action2) action1.
Proof. apply dispatches_commute_aux. Qed.

Lemma url_dispatchAll state actions :
  Forall (fun action => is_Clear action = false) actions ->
  url (dispatchAll state actions) = url state.
Proof.
  unfold dispatchAll. revert state.
  induction actions as [| action actions IH]; intros state Hall; simpl.
  - reflexivity.
  - apply Forall_cons_1 in Hall as [Hclear Hall].
    rewrite IH by exact Hall. rewrite reducer_url, Hclear. reflexivity.
Qed.

Lemma dom_reducer state action :
  is_Clear action = false ->
  dom (transactions (reducer state action)) =
  dom (transactions state) ∪ created (url state) [action].
Proof.
  intros Hclear.
  destruct (decide (action_url action = url state)) as [Hu | Hu].
  - destruct (reducer_current state action Hclear Hu) as [_ ->].
    destruct action as [u sg fs i | u sg | u]; try discriminate; simpl in *.
    + rewrite bool_decide_eq_true_2 by exact Hu. unfold read.
      destruct (transactions state !! sg) as [transaction |] eqn:Hsg.
      * simpl. rewrite dom_insert_L.
        assert (sg ∈ dom (transactions state))
          by (apply elem_of_dom; eauto).
        destruct (inherited sg); simpl; set_solver.
      * destruct (inherited sg); simpl; [rewrite dom_insert_L |]; set_solver.
    + rewrite bool_decide_eq_true_2 by exact Hu.
      rewrite dom_insert_L. set_solver.
  - rewrite reducer_stale by (split; assumption).
    destruct action as [u sg fs i | u sg | u]; try discriminate; simpl in *.
    + rewrite bool_decide_eq_false_2 by exact Hu. simpl. set_solver.
    + rewrite bool_decide_eq_false_2 by exact Hu. set_solver.
Qed.

(** X3. Without a [Clear], a queue of dispatches never changes the
    store's url and never removes a record: the signatures that have a
    record afterwards are those that had one before together with those
    of the [FetchSignature] actions for the store's cluster and those of
    the [UpdateStatus] actions for the store's cluster that name a member
    of [Object.prototype].  An [UpdateStatus] for any other signature adds
    no record. *)
Theorem records_after_dispatches state actions :
  Forall (fun action => is_Clear action = false) actions ->
  url (dispatchAll state actions) = url state /\
  dom (transactions (dispatchAll state actions)) =
    dom (transactions state) ∪ created (url state) actions.
Proof.
  intros Hall. split; [apply url_dispatchAll, Hall |].
  unfold dispatchAll. revert state Hall.
  induction actions as [| action actions IH]; intros state Hall.
  - simpl. set_solver.
  - apply Forall_cons_1 in Hall as [Hclear Hall].
    change (fold_left reducer (action :: actions) state)
      with (fold_left reducer actions (reducer state action)).
    rewrite IH by exact Hall.
    rewrite dom_reducer by exact Hclear.
    rewrite reducer_url, Hclear.
    destruct action as [u sg fs i | u sg | u]; try discriminate; simpl.
    + destruct (bool_decide (u = url state) && inherited sg); set_solver.
    + case_bool_decide; set_solver.
Qed.

(** X4. A [Clear] discards everything dispatched before it: the store
    after the queue is the one an initial store for the new url would have
    reached on the dispatches that follow the [Clear]. *)
Theorem Clear_discards_history state before u after :
  dispatchAll state (before ++ Clear u :: after) =
  dispatchAll (initialState u) after.
Proof.
  unfold dispatchAll. rewrite fold_left_app. reflexivity.
Qed.

Lemma reducer_UpdateStatus_twice state u sg fs i fs' i' :
  reducer (reducer state (UpdateStatus u sg fs i)) (UpdateStatus u sg fs' i') =
  reducer state (UpdateStatus u sg fs' i').
Proof.
  destruct (decide (u = url state)) as [-> | Hu].
  2: { rewrite !(reducer_stale state) by (split; [reflexivity | exact Hu]).
       reflexivity. }
  destruct (reducer_current state (UpdateStatus (url state) sg fs i)
              eq_refl eq_refl) as [Hurl1 Hmap1].
  destruct (reducer_current state (UpdateStatus (url state) sg fs' i')
              eq_refl eq_refl) as [Hurl2 Hmap2].
  destruct (reducer_current
              (reducer state (UpdateStatus (url state) sg fs i))
              (UpdateStatus (url state) sg fs' i')
              eq_refl (eq_sym Hurl1)) as [Hurl12 Hmap12].
  apply State_eq; [congruence |].
  rewrite Hmap12, Hmap2, Hmap1.
  destruct (is_truthy (read (transactions state) sg)) eqn:Htruthy.
  - rewrite read_insert_eq. simpl. apply insert_insert_eq.
  - rewrite Htruthy. reflexivity.
Qed.

Lemma reducer_then_FetchSignature state u sg action :
  action = FetchSignature u sg \/ (exists fs i, action = UpdateStatus u sg fs i) ->
  reducer (reducer state action) (FetchSignature u sg) =
  reducer state (FetchSignature u sg).
Proof.
  intros Haction.
  assert (Hclear : is_Clear action = false)
    by (destruct Haction as [-> | (fs & i & ->)]; reflexivity).
  assert (Hurl : action_url action = u)
    by (destruct Haction as [-> | (fs & i & ->)]; reflexivity).
  destruct (decide (u = url state)) as [-> | Hu].
  2: { rewrite (reducer_stale_after state action (FetchSignature u sg) Hclear)
         by (split; [reflexivity | exact Hu]).
       rewrite (reducer_stale state (FetchSignature u sg))
         by (split; [reflexivity | exact Hu]).
       apply reducer_stale. split; [exact Hclear | congruence]. }
  destruct (reducer_current state action Hclear Hurl) as [Hurl1 Hmap1].
  destruct (reducer_current state (FetchSignature (url state) sg)
              eq_refl eq_refl) as [Hurl2 Hmap2].
  destruct (reducer_current (reducer state action)
              (FetchSignature (url state) sg)
              eq_refl (eq_sym Hurl1)) as [Hurl12 Hmap12].
  apply State_eq; [congruence |].
  rewrite Hmap12, Hmap2, Hmap1.
  destruct Haction as [-> | (fs & i & ->)].
  - rewrite read_insert_eq. simpl. apply insert_insert_eq.
  - destruct (is_truthy (read (transactions state) sg)) eqn:Htruthy.
    + rewrite read_insert_eq. simpl. apply insert_insert_eq.
    + rewrite Htruthy. reflexivity.
Qed.

(** X5. An [UpdateStatus] is overridden by the next dispatch for the same
    url and signature: followed by another [UpdateStatus] or by a
    [FetchSignature], it leaves no trace in the store. *)
Theorem UpdateStatus_is_overridden state u sg fs i fs' i' :
  reducer (reducer state (UpdateStatus u sg fs i)) (UpdateStatus u sg fs' i') =
    reducer state (UpdateStatus u sg fs' i') /\
  reducer (reducer state (UpdateStatus u sg fs i)) (FetchSignature u sg) =
    reducer state (FetchSignature u sg).
Proof.
  split.
  - apply reducer_UpdateStatus_twice.
  - apply reducer_then_FetchSignature. right. eauto.
Qed.

(** ** Interleaved queues *)

Lemma reducer_past_queue state action queue :
  is_Clear action = false ->
  Forall (fun action' =>
            is_Clear action' = false /\
            action_signature action' <> action_signature action) queue ->
  dispatchAll (reducer state action) queue =
  reducer (dispatchAll state queue) action.
Proof.
  intros Hclear. unfold dispatchAll. revert state.
  induction queue as [| action' queue IH]; intros state Hall; simpl.
  - reflexivity.
  - apply Forall_cons_1 in Hall as [[Hclear' Hsig] Hall].
    rewrite <- (IH _ Hall). f_equal.
    apply dispatches_commute_aux; [assumption | assumption | congruence].
Qed.

Lemma dispatchAll_Merge state
  (queue1 queue2 queue : list (@Action TransactionError)) :
  Merge queue1 queue2 queue ->
  Forall (fun action => is_Clear action = false) queue1 ->
  Forall
    (fun action2 =>
       is_Clear action2 = false /\
       Forall (fun action1 =>
                 action_signature action1 <> action_signature action2) queue1)
    queue2 ->
  dispatchAll state queue = dispatchAll state (queue1 ++ queue2).
Proof.
  intros Hmerge. revert state.
  induction Hmerge as [| a queue1 queue2 queue _ IH | a queue1 queue2 queue _ IH];
    intros state H1 H2.
  - reflexivity.
  - apply Forall_cons_1 in H1 as [_ H1].
    unfold dispatchAll in *. simpl. apply IH; [exact H1 |].
    eapply Forall_impl; [exact H2 |]. simpl.
    intros action2 [Hclear Hsigs]. split; [exact Hclear |].
    apply Forall_cons_1 in Hsigs as [_ Hsigs]. exact Hsigs.
  - apply Forall_cons_1 in H2 as [[Hclear Hsigs] H2].
    change (dispatchAll state (a :: queue))
      with (dispatchAll (reducer state a) queue).
    rewrite (IH _ H1 H2).
    unfold dispatchAll. rewrite !fold_left_app. simpl. f_equal.
    apply (reducer_past_queue state a queue1 Hclear).
    apply Forall_forall. intros action1 Hin. split.
    + rewrite Forall_forall in H1. apply H1, Hin.
    + rewrite Forall_forall in Hsigs. apply Hsigs, Hin.
Qed.

(** X6. Two queues of dispatches without [Clear] whose signatures are
    pairwise different can be interleaved in any way: the store ends as if
    the first queue had been reduced entirely before the second. *)
Theorem interleaved_queues_for_different_signatures
  state (queue1 queue2 queue : list (@Action TransactionError)) :
  Merge queue1 queue2 queue ->
  Forall (fun action => is_Clear action = false) queue1 ->
  Forall
    (fun action2 =>
       is_Clear action2 = false /\
       Forall (fun action1 =>
                 action_signature action1 <> action_signature action2) queue1)
    queue2 ->
  dispatchAll state queue = dispatchAll state (queue1 ++ queue2).
Proof. apply dispatchAll_Merge. Qed.

(** X7. Two fetches for the same url and signature: however their four
    dispatches interleave, the store ends as after a single fetch whose
    terminal update is the one reduced last.  The fetch that completes
    last wins, whichever was started first. *)
Theorem last_completed_fetch_wins state u sg fs1 i1 fs2 i2 queue :
  Merge [FetchSignature u sg; UpdateStatus u sg fs1 i1]
        [FetchSignature u sg; UpdateStatus u sg fs2 i2] queue ->
  exists fs i,
    last queue = Some (UpdateStatus u sg fs i) /\
    ((fs, i) = (fs1, i1) \/ (fs, i) = (fs2, i2)) /\
    dispatchAll state queue =
      dispatchAll state [FetchSignature u sg; UpdateStatus u sg fs i].
Proof.
  intros Hmerge.
  repeat match goal with
         | H : Merge _ _ _ |- _ => inversion H; subst; clear H
         end;
    eexists _, _; (split; [reflexivity |]);
    (split; [(left; reflexivity) || (right; reflexivity) |]);
    unfold dispatchAll; cbn [fold_left];
    repeat first
      [ rewrite (reducer_then_FetchSignature _ u sg (FetchSignature u sg))
          by (left; reflexivity)
      | rewrite reducer_UpdateStatus_twice
      | rewrite (reducer_then_FetchSignature _ u sg (UpdateStatus u sg _ _))
          by (right; eauto) ];
    reflexivity.
Qed.

End ReducerProperties.

(** * Further properties of the fetcher *)

Section FetcherProperties.

Context {TransactionError JsError Connection : Type}.
Context (isCached : string -> string -> bool).
Context (CACHED_STATUSES : gmap string (@TransactionStatusInfo TransactionError)).

Implicit Types (state : @State TransactionError).
Implicit Types (action : @Action TransactionError).
Implicit Types (actions : list (@Action TransactionError)).
Implicit Types (transaction : @TransactionStatus TransactionError).
Implicit Types (i : option (@TransactionStatusInfo TransactionError)).
Implicit Types (env : @Env TransactionError JsError Connection).
Implicit Types (u sg : string) (fs : FetchStatus).

Local Abbreviation fetch := (fetchTransactionStatus isCached CACHED_STATUSES).

(** Splits a run of the fetcher by the answers of the cache and of the
    environment, and replaces the run by its calls in each case. *)
Ltac fetch_cases env sg u :=
  let Hc := fresh "Hc" in
  let Hn := fresh "Hn" in
  let Hs := fresh "Hs" in
  let Hv := fresh "Hv" in
  let Hb := fresh "Hb" in
  let error := fresh "error" in
  let connection := fresh "connection" in
  let response := fresh "response" in
  let v := fresh "v" in
  let t := fresh "t" in
  unfold trace, completion;
  destruct (isCached u sg) eqn:Hc;
  [ rewrite (exec_cached isCached CACHED_STATUSES env sg u Hc)
  | destruct (env_NewConnection env u) as [error | connection] eqn:Hn;
    [ rewrite (exec_connection_fails isCached CACHED_STATUSES
                 env sg u error Hc Hn)
    | destruct (env_getSignatureStatus env connection sg true)
        as [error | response] eqn:Hs;
      [ rewrite (exec_status_fails isCached CACHED_STATUSES
                   env sg u connection error Hc Hn Hs)
      | destruct (value response) as [v |] eqn:Hv;
        [ rewrite (exec_found isCached CACHED_STATUSES
                     env sg u connection response v Hc Hn Hs Hv);
          destruct (env_getBlockTime env connection (value_slot v))
            as [error | [t |]] eqn:Hb
        | rewrite (exec_not_found isCached CACHED_STATUSES
                     env sg u connection response Hc Hn Hs Hv) ] ] ] ];
  simpl.

(** ** Runs of the fetcher *)

(** X8. Every run of the fetcher, in every environment, starts by
    dispatching [FetchSignature] and ends by dispatching [UpdateStatus]
    for the same url and signature, with a status that is [Fetched] or
    [FetchFailed], never [Fetching]; it dispatches nothing in between. *)
Theorem fetch_dispatches_first_and_last env sg u :
  exists fs i middle,
    trace env (fetch sg u) =
      call (Dispatch (FetchSignature u sg)) ::
      middle ++ [call (Dispatch (UpdateStatus u sg fs i))] /\
    dispatched middle = [] /\
    fs <> Fetching.
Proof.
  fetch_cases env sg u.
  - exists Fetched, (CACHED_STATUSES !! sg), []. repeat split. discriminate.
  - eexists FetchFailed, None, [_; _]. repeat split. discriminate.
  - eexists FetchFailed, None, [_; _; _]. repeat split. discriminate.
  - eexists Fetched, (Some _), [_; _; _; _]. repeat split. discriminate.
  - eexists Fetched, (Some _), [_; _; _]. repeat split. discriminate.
  - eexists Fetched, (Some _), [_; _; _]. repeat split. discriminate.
  - eexists Fetched, None, [_; _]. repeat split. discriminate.
Qed.

(** X9. When the signature is not cached and [new Connection(url)]
    throws, no query is made: the error is logged and the fetcher ends by
    dispatching [UpdateStatus] with [FetchFailed] and no info. *)
Theorem connection_failure_is_FetchFailed env sg u error :
  isCached u sg = false ->
  env_NewConnection env u = inl error ->
  trace env (fetch sg u) =
    [call (Dispatch (FetchSignature u sg));
     call (NewConnection u);
     call (ConsoleError
             [LogString "Failed to fetch transaction status"; LogError error]);
     call (Dispatch (UpdateStatus u sg FetchFailed None))] /\
  completion env (fetch sg u) = Normal tt.
Proof.
  intros Hc Hn. unfold trace, completion.
  rewrite (exec_connection_fails isCached CACHED_STATUSES _ _ _ _ Hc Hn).
  split; reflexivity.
Qed.

(** X10. When the status service reports a match and the block-time
    service answers [null], the timestamp is ["unavailable"] and nothing
    is logged: the run is the two queries between the two dispatches. *)
Theorem null_block_time_is_unavailable env sg u connection response v :
  isCached u sg = false ->
  env_NewConnection env u = inr connection ->
  env_getSignatureStatus env connection sg true = inr response ->
  value response = Some v ->
  env_getBlockTime env connection (value_slot v) = inr None ->
  trace env (fetch sg u) =
    [call (Dispatch (FetchSignature u sg));
     call (NewConnection u);
     call (GetSignatureStatus connection sg true);
     call (GetBlockTime connection (value_slot v));
     call (Dispatch
             (UpdateStatus u sg Fetched
                (Some {| slot := value_slot v;
                         result := {| err := value_err v |};
                         timestamp := TimestampUnavailable;
                         confirmations :=
                           match value_confirmations v with
                           | Some n => ConfirmationsNumber n
                           | None => ConfirmationsMax
                           end |})))] /\
  logs (trace env (fetch sg u)) = [].
Proof.
  intros Hc Hn Hs Hv Hb. unfold trace.
  rewrite (exec_found isCached CACHED_STATUSES _ _ _ _ _ _ Hc Hn Hs Hv).
  simpl. rewrite Hb. split; reflexivity.
Qed.

(** X11. The terminal status is [FetchFailed] exactly when the fetcher
    logged ["Failed to fetch transaction status"]; a failed block-time
    lookup, logged under another message, does not make the fetch fail. *)
Theorem FetchFailed_iff_failure_logged env sg u :
  (exists i,
     dispatched (trace env (fetch sg u)) =
       [FetchSignature u sg; UpdateStatus u sg FetchFailed i]) <->
  (exists error,
     In [LogString "Failed to fetch transaction status"; LogError error]
        (logs (trace env (fetch sg u)))).
Proof.
  fetch_cases env sg u; split;
    try (intros [i [=]]; fail);
    try (intros [error' [[=] | []]]; fail);
    try (intros [error' []]; fail).
  - intros _. eexists. left. reflexivity.
  - intros _. eexists. reflexivity.
  - intros _. eexists. left. reflexivity.
  - intros _. eexists. reflexivity.
Qed.

(** X12. A run makes at most one connection, one status query and one
    block-time query.  The connection is to the requested url and is made
    only when the signature is not cached; the status query is made on
    that connection, for the requested signature and with
    [searchTransactionHistory] set; the block-time query is made on the
    same connection for the slot of the status the service reported. *)
Theorem fetch_queries env sg u :
  (length (connections (trace env (fetch sg u))) <= 1)%nat /\
  Forall (fun endpoint => endpoint = u /\ isCached u sg = false)
    (connections (trace env (fetch sg u))) /\
  (length (status_queries (trace env (fetch sg u))) <= 1)%nat /\
  Forall
    (fun '(c, sg', searchTransactionHistory) =>
       env_NewConnection env u = inr c /\
       sg' = sg /\
       searchTransactionHistory = true)
    (status_queries (trace env (fetch sg u))) /\
  (length (blockTime_queries (trace env (fetch sg u))) <= 1)%nat /\
  Forall
    (fun '(c, s) =>
       exists response v,
         env_NewConnection env u = inr c /\
         env_getSignatureStatus env c sg true = inr response /\
         value response = Some v /\
         s = value_slot v)
    (blockTime_queries (trace env (fetch sg u))).
Proof.
  fetch_cases env sg u;
    repeat split; try lia;
    repeat (apply Forall_cons_2 || apply Forall_nil_2);
    repeat split; eauto;
    eexists _, _; repeat split; eassumption.
Qed.

(** ** Runs of the fetcher, reduced by the store *)

Lemma dispatched_fetch env sg u :
  exists fs i,
    dispatched (trace env (fetch sg u)) =
      [FetchSignature u sg; UpdateStatus u sg fs i] /\
    fs <> Fetching.
Proof.
  fetch_cases env sg u; eexists _, _; (split; [reflexivity | discriminate]).
Qed.

(** X13. A fetch on the store's cluster, reduced with no other dispatch
    in between, leaves an own record for the signature whose status is
    [Fetched] or [FetchFailed].  The record keeps the signature field of
    the record it replaces; when there was none it carries the signature,
    unless the signature names a member of [Object.prototype], in which
    case it carries none.  Every other read and the url are as before. *)
Theorem fetch_settles_record env state sg u :
  u = url state ->
  exists fs i,
    fs <> Fetching /\
    useTransactionStatus
      (dispatchAll state (dispatched (trace env (fetch sg u)))) sg =
      Own {| signature :=
               match useTransactionStatus state sg with
               | Own transaction => signature transaction
               | Inherited => None
               | Undefined => Some sg
               end;
             fetchStatus := fs;
             info := i |} /\
    (forall sg',
       sg' <> sg ->
       useTransactionStatus
         (dispatchAll state (dispatched (trace env (fetch sg u)))) sg' =
       useTransactionStatus state sg') /\
    url (dispatchAll state (dispatched (trace env (fetch sg u)))) = url state.
Proof.
  intros ->.
  destruct (dispatched_fetch env sg (url state)) as (fs & i & -> & Hfs).
  exists fs, i. split; [exact Hfs |].
  unfold useTransactionStatus.
  change (dispatchAll state
            [FetchSignature (url state) sg; UpdateStatus (url state) sg fs i])
    with (reducer (reducer state (FetchSignature (url state) sg))
            (UpdateStatus (url state) sg fs i)).
  rewrite reducer_FetchSignature.
  set (record := {| signature := _; fetchStatus := Fetching; info := None |}).
  set (state1 := {| transactions := _; url := url state |}).
  assert (Hrecord : transactions state1 !! sg = Some record)
    by apply lookup_insert_eq.
  pose proof (reducer_UpdateStatus_known state1 sg fs i record Hrecord)
    as Hupdate.
  change (url state1) with (url state) in Hupdate.
  rewrite Hupdate. simpl. repeat split.
  - apply read_insert_eq.
  - intros sg' Hne. rewrite !read_insert_ne by congruence. reflexivity.
Qed.

(** X14. A fetch for another cluster than the store's leaves the store
    as it was, whatever the environment answered. *)
Theorem stale_fetch_leaves_store_unchanged env state sg u :
  u <> url state ->
  dispatchAll state (dispatched (trace env (fetch sg u))) = state.
Proof.
  intros Hu.
  destruct (dispatched_fetch env sg u) as (fs & i & -> & _).
  change (dispatchAll state [FetchSignature u sg; UpdateStatus u sg fs i])
    with (reducer (reducer state (FetchSignature u sg))
            (UpdateStatus u sg fs i)).
  rewrite (reducer_stale state (FetchSignature u sg))
    by (split; [reflexivity | exact Hu]).
  apply reducer_stale. split; [reflexivity | exact Hu].
Qed.

(** X15. When a [Clear] is reduced between the two dispatches of a
    fetch, the terminal [UpdateStatus] is dropped and the store is the
    empty store of the [Clear], also when the [Clear] carries the url the
    fetch was started for.  The one exception: when the [Clear] carries
    that url and the signature names a member of [Object.prototype], the
    update is stored, as a record without a signature. *)
Theorem Clear_during_fetch env state sg u u' :
  exists fs i,
    dispatched (trace env (fetch sg u)) =
      [FetchSignature u sg; UpdateStatus u sg fs i] /\
    dispatchAll state
      [FetchSignature u sg; Clear u'; UpdateStatus u sg fs i] =
    if bool_decide (u = u') && inherited sg
    then {| transactions :=
              {[ sg := {| signature := None;
                          fetchStatus := fs;
                          info := i |} ]};
            url := u' |}
    else initialState u'.
Proof.
  destruct (dispatched_fetch env sg u) as (fs & i & -> & _).
  exists fs, i. split; [reflexivity |].
  change (dispatchAll state
            [FetchSignature u sg; Clear u'; UpdateStatus u sg fs i])
    with (reducer (initialState u') (UpdateStatus u sg fs i)).
  destruct (decide (u = u')) as [-> | Hu].
  - rewrite bool_decide_eq_true_2 by reflexivity. simpl andb.
    destruct (inherited sg) eqn:Hin.
    + etrans.
      * apply (reducer_UpdateStatus_inherited (initialState u') sg fs i).
        apply read_Inherited. split; [apply lookup_empty | exact Hin].
      * simpl. rewrite insert_empty. reflexivity.
    + apply (reducer_UpdateStatus_unknown (initialState u')).
      apply read_Undefined. split; [apply lookup_empty | exact Hin].
  - rewrite bool_decide_eq_false_2 by exact Hu. simpl andb.
    apply reducer_stale. split; [reflexivity | exact Hu].
Qed.

(** ** Concurrent fetches *)

(** X16. Two fetches for different signatures may complete in any order:
    however their four dispatches interleave, the store ends as if the
    first fetch had run to completion before the second started. *)
Theorem concurrent_fetches_for_different_signatures
  env1 env2 state sg1 sg2 u1 u2 queue :
  sg1 <> sg2 ->
  Merge (dispatched (trace env1 (fetch sg1 u1)))
        (dispatched (trace env2 (fetch sg2 u2))) queue ->
  dispatchAll state queue =
  dispatchAll state
    (dispatched (trace env1 (fetch sg1 u1)) ++
     dispatched (trace env2 (fetch sg2 u2))).
Proof.
  intros Hne.
  destruct (dispatched_fetch env1 sg1 u1) as (fs1 & i1 & -> & _).
  destruct (dispatched_fetch env2 sg2 u2) as (fs2 & i2 & -> & _).
  intros Hmerge. apply (dispatchAll_Merge state _ _ _ Hmerge).
  - repeat (apply Forall_cons_2 || apply Forall_nil_2); reflexivity.
  - repeat (apply Forall_cons_2 || apply Forall_nil_2);
      (split; [reflexivity |]);
      repeat (apply Forall_cons_2 || apply Forall_nil_2);
      simpl; congruence.
Qed.

End FetcherProperties.

(** * Properties of the provider's effect and of the test transactions *)

Section ProviderProperties.

Context {TransactionError JsError Connection : Type}.
Context {Account PublicKey Buffer : Type}.
Context {Cluster ClusterStatus : Type}.
Context `{EqDecision Cluster} `{EqDecision ClusterStatus}.
Context (Devnet : Cluster) (Connecting : ClusterStatus).
Context (publicKey : Account -> PublicKey).

Implicit Types (env : @ProviderEnv JsError Connection Account PublicKey Buffer).
Implicit Types (state : @State TransactionError).
Implicit Types (testKey testFlag : option string) (u : string).
Implicit Types (cluster : Cluster) (clusterStatus : ClusterStatus).

Local Abbreviation createTest :=
  (@createTestTransaction TransactionError JsError Connection
     Account PublicKey Buffer ClusterStatus publicKey).
Local Abbreviation providerEffect :=
  (@TransactionsProvider_effect TransactionError JsError Connection
     Account PublicKey Buffer Cluster ClusterStatus _ _
     Devnet Connecting publicKey).

(** Splits a run by the answers of the environment, one call at a time. *)
Ltac script_cases :=
  unfold TransactionsProvider_effect, createTestTransaction, test_account,
    script_call, script_trigger, mbind, mret, Script_bind, Script_ret;
  repeat (simpl;
          match goal with
          | |- context [match ?x with inl _ => _ | inr _ => _ end] =>
            destruct x eqn:?
          | |- context [match ?x with Some _ => _ | None => _ end] =>
            destruct x eqn:?
          end);
  simpl.

(** X17. [createTestTransaction] rejects exactly when setting up the
    test account throws (making the fresh key pair, decoding a non-empty
    test key, or making the key pair from it), and with that error; every
    failure after that is caught. *)
Theorem createTestTransaction_rejects_only_on_key_handling
  env testKey u clusterStatus :
  snd (run_script env (createTest testKey u clusterStatus)) =
  match test_account env testKey with
  | inl error => Thrown error
  | inr _ => Normal tt
  end.
Proof. script_cases; congruence. Qed.

(** X18. When setting up the test account throws, the run stops
    there: only key-handling calls were made, no connection, no airdrop,
    no transfer, and nothing is logged. *)
Theorem key_handling_failure_stops_the_run env testKey u clusterStatus error :
  test_account env testKey = inl error ->
  Forall (fun c => key_handling c = true)
    (fst (run_script env (createTest testKey u clusterStatus))) /\
  provider_logs
    (fst (run_script env (createTest testKey u clusterStatus))) = [].
Proof.
  intros Hsetup. revert Hsetup. script_cases; intros Hsetup;
    try discriminate Hsetup;
    (split; [| reflexivity]);
    repeat (apply Forall_cons_2 || apply Forall_nil_2); reflexivity.
Qed.

(** X19. Once the test account is set up and the connection can be
    made, the self-transfer of one lamport signed by the test account is
    sent, with one confirmation and preflight checks, whatever happened to
    the airdrop before it. *)
Theorem transfer_is_sent_whatever_the_airdrop
  env testKey u clusterStatus account connection :
  test_account env testKey = inr account ->
  env_NewConnectionWith env u "recent" = inr connection ->
  sent_transactions
    (fst (run_script env (createTest testKey u clusterStatus))) =
    [({| fromPubkey := publicKey account;
         toPubkey := publicKey account;
         lamports := 1 |}, [account], 1, false)].
Proof.
  intros Hsetup Hconnection. revert Hsetup Hconnection.
  script_cases; intros Hsetup Hconnection; congruence.
Qed.

(** X20. A status fetch is started for exactly the signatures the run
    obtained: the airdrop's when the airdrop succeeded, then the
    transfer's when the transfer was confirmed, each for the url the run
    was given.  The account is fetched exactly when the airdrop
    succeeded. *)
Theorem fetches_started_for_obtained_signatures
  env testKey u clusterStatus account connection :
  test_account env testKey = inr account ->
  env_NewConnectionWith env u "recent" = inr connection ->
  started_fetches
    (fst (run_script env (createTest testKey u clusterStatus))) =
    match env_requestAirdrop env connection (publicKey account) 100000 with
    | inr sg => [(sg, u)]
    | inl _ => []
    end ++
    match env_sendAndConfirmTransaction env connection
            {| fromPubkey := publicKey account;
               toPubkey := publicKey account;
               lamports := 1 |} [account] 1 false with
    | inr sg => [(sg, u)]
    | inl _ => []
    end /\
  fetched_accounts
    (fst (run_script env (createTest testKey u clusterStatus))) =
    match env_requestAirdrop env connection (publicKey account) 100000 with
    | inr _ => [publicKey account]
    | inl _ => []
    end.
Proof.
  intros Hsetup Hconnection. revert Hsetup Hconnection.
  script_cases; intros Hsetup Hconnection; simplify_eq;
    try congruence; split; simpl; congruence.
Qed.

(** X21. When the connection cannot be made, both attempts fail on it:
    each logs the error under its own message, no fetch is started and
    nothing is sent, and the run still completes normally. *)
Theorem connection_failure_fails_both_attempts
  env testKey u clusterStatus account error :
  test_account env testKey = inr account ->
  env_NewConnectionWith env u "recent" = inl error ->
  provider_logs
    (fst (run_script env (createTest testKey u clusterStatus))) =
    [[LogString "Failed to create test success transaction"; LogError error];
     [LogString "Failed to create test failure transaction"; LogError error]] /\
  started_fetches
    (fst (run_script env (createTest testKey u clusterStatus))) = [] /\
  sent_transactions
    (fst (run_script env (createTest testKey u clusterStatus))) = [] /\
  snd (run_script env (createTest testKey u clusterStatus)) = Normal tt.
Proof.
  intros Hsetup Hconnection. revert Hsetup Hconnection.
  script_cases; intros Hsetup Hconnection; simplify_eq;
    try congruence; repeat split; simpl; congruence.
Qed.

(** X22. When the airdrop succeeds and fetching the account throws, the
    status fetch for the airdrop's signature has already been started, and
    the error is logged as a failure to create the test success
    transaction. *)
Theorem fetchAccount_failure_after_airdrop
  env testKey u clusterStatus account connection sg error :
  test_account env testKey = inr account ->
  env_NewConnectionWith env u "recent" = inr connection ->
  env_requestAirdrop env connection (publicKey account) 100000 = inr sg ->
  env_fetchAccount env (publicKey account) = inl error ->
  In (sg, u)
    (started_fetches
       (fst (run_script env (createTest testKey u clusterStatus)))) /\
  In [LogString "Failed to create test success transaction"; LogError error]
    (provider_logs
       (fst (run_script env (createTest testKey u clusterStatus)))).
Proof.
  intros Hsetup Hconnection Hairdrop Haccount.
  revert Hsetup Hconnection Hairdrop Haccount.
  script_cases; intros Hsetup Hconnection Hairdrop Haccount; simplify_eq;
    try congruence; split; left; simpl; congruence.
Qed.

(** X23. The provider's effect completes normally in every case, even
    when the test transactions reject.  Its own call of [dispatch] is the
    [Clear] for the current url, made first and exactly when the cluster
    is connecting; it makes no other.  Every other dispatch that reaches
    the store while the effect runs comes from a fetch it starts, and it
    starts fetches for the current url only. *)
Theorem provider_effect_dispatches
  env testKey testFlag cluster clusterStatus u :
  snd (run_script env
         (providerEffect testKey testFlag cluster clusterStatus u)) =
    Normal tt /\
  exists rest,
    fst (run_script env
           (providerEffect testKey testFlag cluster clusterStatus u)) =
      (if bool_decide (clusterStatus = Connecting)
       then [provider_call (ProviderDispatch (Clear u))]
       else []) ++ rest /\
    Forall (fun c => is_own_dispatch c = false) rest /\
    Forall (fun started => snd started = u) (started_fetches rest).
Proof.
  unfold TransactionsProvider_effect.
  destruct (bool_decide (clusterStatus = Connecting));
    destruct (bool_decide (cluster = Devnet));
    destruct (bool_decide (testFlag <> None));
    script_cases; (split; [reflexivity |]);
    eexists; (split; [reflexivity |]);
    split; simpl;
    repeat (apply Forall_cons_2 || apply Forall_nil_2); reflexivity.
Qed.

(** X24. Outside test mode (another cluster than Devnet, or no [test]
    parameter in the query) the effect makes no call besides the [Clear]
    dispatch: no key pair, no connection, no transaction. *)
Theorem provider_effect_outside_test_mode
  env testKey testFlag cluster clusterStatus u :
  cluster <> Devnet \/ testFlag = None ->
  fst (run_script env
         (providerEffect testKey testFlag cluster clusterStatus u)) =
  if bool_decide (clusterStatus = Connecting)
  then [provider_call (ProviderDispatch (Clear u))]
  else [].
Proof.
  intros Hmode. unfold TransactionsProvider_effect.
  assert (Hoff : bool_decide (cluster = Devnet) &&
                 bool_decide (testFlag <> None) = false).
  { destruct Hmode as [Hcluster | ->].
    - rewrite bool_decide_eq_false_2 by exact Hcluster. reflexivity.
    - rewrite (bool_decide_eq_false_2 (None <> None)) by (intros Hn; now apply Hn).
      apply andb_false_r. }
  rewrite Hoff.
  destruct (bool_decide (clusterStatus = Connecting)); reflexivity.
Qed.

End ProviderProperties.

(** * The further properties on the sample data *)

Lemma dispatches_for_SIG1_and_SIG2_commute :
  reducer
    (reducer sample_state
       (UpdateStatus "http://a" "SIG1" Fetched (Some sample_info)))
    (FetchSignature "http://a" "SIG2") =
  reducer
    (reducer sample_state (FetchSignature "http://a" "SIG2"))
    (UpdateStatus "http://a" "SIG1" Fetched (Some sample_info)).
Proof.
  apply (dispatches_for_different_signatures_commute sample_state
           (UpdateStatus "http://a" "SIG1" Fetched (Some sample_info))
           (FetchSignature "http://a" "SIG2"));
    [reflexivity | reflexivity | simpl; discriminate].
Defined.

Lemma records_after_dispatches_on_sample_state :
  dom (transactions
         (dispatchAll sample_state
            [FetchSignature "http://a" "SIG2";
             UpdateStatus "http://a" "SIG3" Fetched None;
             UpdateStatus "http://a" "toString" Fetched None;
             FetchSignature "http://b" "SIG4"])) =
  dom (transactions sample_state) ∪ {[ "SIG2"%string; "toString"%string ]}.
Proof.
  rewrite (proj2 (records_after_dispatches sample_state
                    [FetchSignature "http://a" "SIG2";
                     UpdateStatus "http://a" "SIG3" Fetched None;
                     UpdateStatus "http://a" "toString" Fetched None;
                     FetchSignature "http://b" "SIG4"]
                    ltac:(repeat (apply Forall_cons_2 || apply Forall_nil_2);
                          reflexivity))).
  by_evaluation.
Defined.

Lemma connection_failure_on_sample :
  never_cached "http://a" "SIG1" = false /\
  env_NewConnection env_connection_fails "http://a" =
    inl "invalid endpoint"%string /\
  dispatched
    (trace env_connection_fails
       (fetchTransactionStatus never_cached ∅ "SIG1" "http://a")) =
    [FetchSignature "http://a" "SIG1";
     UpdateStatus "http://a" "SIG1" FetchFailed None].
Proof.
  do 2 (split; [reflexivity |]).
  rewrite (proj1 (connection_failure_is_FetchFailed never_cached ∅
                    env_connection_fails "SIG1" "http://a"
                    "invalid endpoint" eq_refl eq_refl)).
  reflexivity.
Defined.

Lemma null_block_time_on_sample :
  env_getBlockTime env_block_time_null "http://a" 5 = inr None /\
  logs (trace env_block_time_null
          (fetchTransactionStatus never_cached ∅ "SIG1" "http://a")) = [].
Proof.
  split; [reflexivity |].
  exact (proj2 (null_block_time_is_unavailable never_cached ∅
                  env_block_time_null "SIG1" "http://a" "http://a"
                  {| context_slot := 9; value := Some sample_status |}
                  sample_status eq_refl eq_refl eq_refl eq_refl eq_refl)).
Defined.

Lemma fetch_settles_record_on_sample_state :
  "http://a"%string = url sample_state /\
  exists fs i,
    fs <> Fetching /\
    useTransactionStatus
      (dispatchAll sample_state
         (dispatched
            (trace env_not_found
               (fetchTransactionStatus never_cached ∅ "SIG1" "http://a"))))
      "SIG1" =
      Own {| signature := Some "SIG1"%string; fetchStatus := fs; info := i |}.
Proof.
  split; [reflexivity |].
  destruct (fetch_settles_record never_cached ∅ env_not_found sample_state
              "SIG1" "http://a" eq_refl)
    as (fs & i & Hfs & Hrecord & _).
  exists fs, i. split; [exact Hfs | exact Hrecord].
Defined.

Lemma stale_fetch_on_sample_state :
  "http://b"%string <> url sample_state /\
  dispatchAll sample_state
    (dispatched
       (trace env_block_time_fails
          (fetchTransactionStatus never_cached ∅ "SIG1" "http://b"))) =
  sample_state.
Proof.
  assert (H : "http://b"%string <> url sample_state) by by_evaluation.
  split; [exact H |].
  exact (stale_fetch_leaves_store_unchanged never_cached ∅
           env_block_time_fails sample_state "SIG1" "http://b" H).
Defined.

Lemma interleaved_queues_on_sample_state :
  dispatchAll sample_state
    [FetchSignature "http://a" "SIG2";
     UpdateStatus "http://a" "SIG1" Fetched (Some sample_info);
     UpdateStatus "http://a" "SIG2" FetchFailed None] =
  dispatchAll sample_state
    ([UpdateStatus "http://a" "SIG1" Fetched (Some sample_info)] ++
     [FetchSignature "http://a" "SIG2";
      UpdateStatus "http://a" "SIG2" FetchFailed None]).
Proof.
  apply interleaved_queues_for_different_signatures.
  - apply Merge_right, Merge_left, Merge_right, Merge_nil.
  - repeat (apply Forall_cons_2 || apply Forall_nil_2); reflexivity.
  - repeat (apply Forall_cons_2 || apply Forall_nil_2);
      (split; [reflexivity |]);
      repeat (apply Forall_cons_2 || apply Forall_nil_2);
      simpl; discriminate.
Defined.

Lemma concurrent_fetches_on_sample_state :
  "SIG1"%string <> "SIG2"%string /\
  dispatchAll sample_state
    [FetchSignature "http://a" "SIG1";
     FetchSignature "http://a" "SIG2";
     UpdateStatus "http://a" "SIG2" Fetched None;
     UpdateStatus "http://a" "SIG1" FetchFailed None] =
  dispatchAll sample_state
    (dispatched
       (trace env_status_fails
          (fetchTransactionStatus never_cached ∅ "SIG1" "http://a")) ++
     dispatched
       (trace env_not_found
          (fetchTransactionStatus never_cached ∅ "SIG2" "http://a"))).
Proof.
  assert (H : "SIG1"%string <> "SIG2"%string) by discriminate.
  split; [exact H |].
  apply (concurrent_fetches_for_different_signatures never_cached ∅
           env_status_fails env_not_found sample_state
           "SIG1" "SIG2" "http://a" "http://a" _ H).
  apply Merge_left, Merge_right, Merge_right, Merge_left, Merge_nil.
Defined.

Lemma last_completed_fetch_wins_on_sample_state :
  dispatchAll sample_state
    [FetchSignature "http://a" "SIG1";
     FetchSignature "http://a" "SIG1";
     UpdateStatus "http://a" "SIG1" Fetched (Some sample_info);
     UpdateStatus "http://a" "SIG1" FetchFailed None] =
  dispatchAll sample_state
    [FetchSignature "http://a" "SIG1";
     UpdateStatus "http://a" "SIG1" FetchFailed None].
Proof.
  destruct (last_completed_fetch_wins sample_state "http://a" "SIG1"
              FetchFailed None Fetched (Some sample_info)
              [FetchSignature "http://a" "SIG1";
               FetchSignature "http://a" "SIG1";
               UpdateStatus "http://a" "SIG1" Fetched (Some sample_info);
               UpdateStatus "http://a" "SIG1" FetchFailed None]
              ltac:(apply Merge_left, Merge_right, Merge_right,
                      Merge_left, Merge_nil))
    as (fs & i & Hlast & _ & Hstore).
  injection Hlast as <- <-. exact Hstore.
Defined.

Lemma bad_test_key_stops_the_run :
  test_account provider_env_bad_key (Some "not base58"%string) =
    inl "Non-base58 character"%string /\
  provider_logs
    (fst (run_script provider_env_bad_key
            (@createTestTransaction string string string string string string
               string sample_publicKey (Some "not base58"%string)
               "http://devnet" "connected"))) = [].
Proof.
  split; [reflexivity |].
  exact (proj2 (key_handling_failure_stops_the_run sample_publicKey
                  provider_env_bad_key (Some "not base58"%string)
                  "http://devnet" "connected"%string
                  "Non-base58 character" eq_refl)).
Defined.

Lemma transfer_is_sent_on_sample :
  test_account provider_env_airdrop_only None = inr "fresh"%string /\
  env_NewConnectionWith provider_env_airdrop_only "http://devnet" "recent" =
    inr "http://devnet"%string /\
  sent_transactions
    (fst (run_script provider_env_airdrop_only
            (@createTestTransaction string string string string string string
               string sample_publicKey None "http://devnet" "connected"))) =
    [({| fromPubkey := "pk:fresh"%string;
         toPubkey := "pk:fresh"%string;
         lamports := 1 |}, ["fresh"%string], 1, false)].
Proof.
  do 2 (split; [reflexivity |]).
  exact (transfer_is_sent_whatever_the_airdrop sample_publicKey
           provider_env_airdrop_only None "http://devnet" "connected"%string
           "fresh" "http://devnet" eq_refl eq_refl).
Defined.

Lemma fetches_started_on_sample :
  test_account provider_env_airdrop_only (Some "KEY"%string) =
    inr "account:bytes:KEY"%string /\
  env_NewConnectionWith provider_env_airdrop_only "http://devnet" "recent" =
    inr "http://devnet"%string /\
  started_fetches
    (fst (run_script provider_env_airdrop_only
            (@createTestTransaction string string string string string string
               string sample_publicKey (Some "KEY"%string)
               "http://devnet" "connected"))) =
    [("SIG-AIRDROP"%string, "http://devnet"%string)].
Proof.
  do 2 (split; [reflexivity |]).
  rewrite (proj1 (fetches_started_for_obtained_signatures sample_publicKey
                    provider_env_airdrop_only (Some "KEY"%string)
                    "http://devnet" "connected"%string
                    "account:bytes:KEY" "http://devnet" eq_refl eq_refl)).
  reflexivity.
Defined.

Lemma connection_failure_on_provider_sample :
  test_account provider_env_no_connection None = inr "fresh"%string /\
  env_NewConnectionWith provider_env_no_connection "http://devnet" "recent" =
    inl "invalid endpoint"%string /\
  started_fetches
    (fst (run_script provider_env_no_connection
            (@createTestTransaction string string string string string string
               string sample_publicKey None "http://devnet" "connected"))) = [].
Proof.
  do 2 (split; [reflexivity |]).
  exact (proj1 (proj2 (connection_failure_fails_both_attempts sample_publicKey
                  provider_env_no_connection None
                  "http://devnet" "connected"%string
                  "fresh" "invalid endpoint" eq_refl eq_refl))).
Defined.

Lemma fetchAccount_failure_on_sample :
  env_requestAirdrop provider_env_fetchAccount_fails
    "http://devnet" "pk:fresh" 100000 = inr "SIG-AIRDROP"%string /\
  env_fetchAccount provider_env_fetchAccount_fails "pk:fresh" =
    inl "account fetch failed"%string /\
  In ("SIG-AIRDROP"%string, "http://devnet"%string)
    (started_fetches
       (fst (run_script provider_env_fetchAccount_fails
               (@createTestTransaction string string string string string
                  string string sample_publicKey None
                  "http://devnet" "connected")))).
Proof.
  do 2 (split; [reflexivity |]).
  exact (proj1 (fetchAccount_failure_after_airdrop sample_publicKey
                  provider_env_fetchAccount_fails None
                  "http://devnet" "connected"%string
                  "fresh" "http://devnet" "SIG-AIRDROP"
                  "account fetch failed" eq_refl eq_refl eq_refl eq_refl)).
Defined.

Lemma provider_effect_on_mainnet :
  ("mainnet-beta"%string <> "devnet"%string \/ Some "1"%string = None) /\
  fst (run_script provider_env_airdrop_only
         (@TransactionsProvider_effect string string string string string
            string string string _ _ "devnet" "connecting" sample_publicKey
            None (Some "1"%string) "mainnet-beta" "connecting"
            "http://mainnet")) =
  [provider_call (ProviderDispatch (Clear "http://mainnet"))].
Proof.
  assert (H : "mainnet-beta"%string <> "devnet"%string \/
              Some "1"%string = None)
    by (left; discriminate).
  split; [exact H |].
  rewrite (provider_effect_outside_test_mode "devnet"%string
             "connecting"%string sample_publicKey
             provider_env_airdrop_only None (Some "1"%string)
             "mainnet-beta"%string "connecting"%string "http://mainnet" H).
  reflexivity.
Defined.
